(** * Ramp uploader: the export/relay function and the SFTP transfer stage

    A shallow embedding of [main.py] (the HTTP-triggered [export_and_upload])
    and [sftp_upload.py] ([get_secret], [upload_to_sftp],
    [process_csv_upload]).

    The Python code is a straight line of blocking calls to external
    collaborators (secret store, SFTP server, warehouse, HTTP relay) wrapped
    in [try]/[except] blocks, plus a few operations on the local file system.
    It is modelled in a state-and-exception monad:

    - the state [World] holds the local file system, the trace of calls
      made to the outside world, in program order, and which connections
      are open;
    - the behaviour of every collaborator is read from a record [Env];
      each of its fields answers one call, either with a value or with a
      raised exception;
    - [try_except] is Python's [try: ... except Exception as e: ...].

    Exceptions are instances of [Exception]; signals deriving only from
    [BaseException] ([KeyboardInterrupt], [SystemExit]) are outside the model.
    Characters are 8-bit and the text encoding of a file maps one character
    to one byte. *)

From Stdlib Require Import ZArith Lia Ascii String List.
From Stdlib.Strings Require Import Byte.
From stdpp Require Import base option list gmap strings pretty.
Import ListNotations.
Local Open Scope string_scope.

(** ** Exceptions *)

(** The exception classes the code and its libraries raise.  [OSError] is the
    class Python also names [IOError]; the four classes after it are its
    subclasses. *)
Inductive exc_class :=
  | ValueError
  | KeyError
  | OSError
  | FileNotFoundError
  | FileExistsError
  | IsADirectoryError
  | PermissionError
  | SSHException
  | SFTPError
  | RequestException
  | GoogleAPIError
  | RuntimeError.

Record exn := Exn { exn_class : exc_class; exn_msg : string }.

(** [isinstance(e, IOError)]. [requests]' exceptions derive from [IOError];
    paramiko's [SFTPError] and [SSHException] do not. *)
Definition is_IOError (e : exn) : bool :=
  match exn_class e with
  | OSError | FileNotFoundError | FileExistsError | IsADirectoryError
  | PermissionError | RequestException => true
  | _ => false
  end.

(** [str(e)] *)
Definition str (e : exn) : string := exn_msg e.

Inductive outcome (A : Type) :=
  | Ret (a : A)
  | Raise (e : exn).
Arguments Ret {A} a.
Arguments Raise {A} e.

(** ** The world *)

Inductive node :=
  | File (content : list byte)
  | Dir.

Inductive log_level := ERROR | INFO.

(** Calls that leave the process, and log records, in program order. *)
Inductive event :=
  | EvSecret (name : string)
  | EvTransport (host : string) (port : Z)
  | EvConnect (username password : string)
  | EvSftpOpen
  | EvChdir (directory : string)
  | EvPut (localpath remotepath : string) (data : option (list byte))
  | EvSftpClose
  | EvTransportClose
  | EvQuery (project : string) (subject : option string) (query : string)
  | EvResult
  | EvFetch
  | EvPost (url filename : string) (content : list byte) (mime : string)
  | EvLog (level : log_level) (msg : string).

(** The local file system, the calls made so far, and the connections the
    process holds open. *)
Record World := mkWorld {
  fs : gmap string node;
  trace : list event;
  transport_active : bool;
  sftp_active : bool
}.

Definition with_fs (f : gmap string node → gmap string node) (w : World) : World :=
  mkWorld (f (fs w)) (trace w) (transport_active w) (sftp_active w).

Definition with_event (ev : event) (w : World) : World :=
  mkWorld (fs w) (trace w ++ [ev]) (transport_active w) (sftp_active w).

Definition with_transport (b : bool) (w : World) : World :=
  mkWorld (fs w) (trace w) b (sftp_active w).

Definition with_sftp (b : bool) (w : World) : World :=
  mkWorld (fs w) (trace w) (transport_active w) b.

(** ** The monad *)

Definition M (A : Type) : Type := World → outcome A * World.

Definition ret {A} (a : A) : M A := fun w => (Ret a, w).

Definition raise {A} (e : exn) : M A := fun w => (Raise e, w).

Definition bind {A B} (m : M A) (k : A → M B) : M B :=
  fun w =>
    match m w with
    | (Ret a, w') => k a w'
    | (Raise e, w') => (Raise e, w')
    end.

(** stdpp's monad notation: [x ← m; k] and [m;; k]. *)
#[global] Instance M_ret : MRet M := @ret.
#[global] Instance M_bind : MBind M := fun A B k m => bind m k.

(** [try: body except Exception as e: handler(e)] *)
Definition try_except {A} (body : M A) (handler : exn → M A) : M A :=
  fun w =>
    match body w with
    | (Ret a, w') => (Ret a, w')
    | (Raise e, w') => handler e w'
    end.

(** [try: body except IOError: handler]; any other exception passes through. *)
Definition try_except_IOError {A} (body : M A) (handler : M A) : M A :=
  fun w =>
    match body w with
    | (Ret a, w') => (Ret a, w')
    | (Raise e, w') => if is_IOError e then handler w' else (Raise e, w')
    end.

Definition lift {A} (o : outcome A) : M A := fun w => (o, w).

Definition emit (ev : event) : M unit := fun w => (Ret tt, with_event ev w).

(** A call to a collaborator: recorded, then answered. *)
Definition call {A} (ev : event) (answer : outcome A) : M A :=
  emit ev;; lift answer.

Definition logging_error (msg : string) : M unit := emit (EvLog ERROR msg).
Definition logging_info (msg : string) : M unit := emit (EvLog INFO msg).

(** ** The environment *)

Record Response := mkResponse { status_code : Z; text : string }.

Inductive value :=
  | VNone
  | VStr (s : string)
  | VInt (n : Z)
  | VBool (b : bool)
  | VOther (rendered : string).

(** What [client.query(...).result()] gives: the schema, and an iterator that
    yields [rs_rows] and then either stops or raises [rs_error] (a failed page
    fetch).  A row maps column names to values. *)
Record ResultSet := mkResultSet {
  rs_schema : list string;
  rs_rows : list (gmap string value);
  rs_error : option exn
}.

Record Credentials := mkCredentials {
  cred_info : string;
  cred_scopes : list string;
  cred_subject : option string
}.

Record Env := mkEnv {
  (* the process and the operating system *)
  os_environ : string → option string;
  os_open_error : string → option exn;
  tempdir : string;
  tmp_names : list string;
  format_exc : exn → string;
  (* libraries *)
  b64decode : string → outcome (list byte);
  decode_utf8 : list byte → outcome string;
  json_loads : string → outcome string;
  from_service_account_info : string → list string → outcome Credentials;
  (* Secret Manager *)
  secret_client : outcome unit;
  access_secret_version : string → outcome string;
  (* the SFTP server, through paramiko *)
  sftp_transport : string → Z → outcome unit;
  sftp_connect : string → string → outcome unit;
  sftp_from_transport : outcome unit;
  remote_chdir : string → outcome unit;
  remote_put : string → list byte → outcome unit;
  (* BigQuery *)
  bq_query : string → Credentials → string → outcome unit;
  bq_result : outcome ResultSet;
  (* the relay endpoint *)
  requests_post : string → string → list byte → string → outcome Response
}.

(** ** The local file system

    A path is absent, a regular file or a directory.  Creating or truncating
    a file fails on a directory, and wherever the operating system refuses it
    for a reason the map does not show ([os_open_error]: missing parent
    directory, permissions, an invalid name).  The map is keyed by the path
    as the program writes it: there are no links and no [..] in it, and two
    spellings of one path are two keys.  Removal has no permissions: removing
    a regular file succeeds, as it does for a file the process created
    itself; a file of another owner found at the path is outside the model. *)
Section FileSystem.
Variable env : Env.

(** [open(path, "wb")]: the file exists and is empty afterwards. *)
Definition open_wb (path : string) : M unit := fun w =>
  match fs w !! path with
  | Some Dir => (Raise (Exn IsADirectoryError ("[Errno 21] Is a directory: '" ++ path ++ "'")), w)
  | _ =>
    match os_open_error env path with
    | Some e => (Raise e, w)
    | None => (Ret tt, with_fs (<[path := File []]>) w)
    end
  end.

(** [f.write(data)] on a file opened by this process at [path]. *)
Definition write (path : string) (data : list byte) : M unit := fun w =>
  match fs w !! path with
  | Some (File c) => (Ret tt, with_fs (<[path := File (c ++ data)]>) w)
  | _ => (Raise (Exn ValueError "I/O operation on closed file"), w)
  end.

(** [open(path, "rb").read()] *)
Definition read_rb (path : string) : M (list byte) := fun w =>
  match fs w !! path with
  | Some (File c) => (Ret c, w)
  | Some Dir => (Raise (Exn IsADirectoryError ("[Errno 21] Is a directory: '" ++ path ++ "'")), w)
  | None => (Raise (Exn FileNotFoundError ("[Errno 2] No such file or directory: '" ++ path ++ "'")), w)
  end.

(** [os.path.exists(path)] *)
Definition os_path_exists (path : string) : M bool := fun w =>
  (Ret (bool_decide (is_Some (fs w !! path))), w).

(** [os.remove(path)], which is also [os.unlink(path)]. *)
Definition os_remove (path : string) : M unit := fun w =>
  match fs w !! path with
  | Some (File _) => (Ret tt, with_fs (delete path) w)
  | Some Dir => (Raise (Exn IsADirectoryError ("[Errno 21] Is a directory: '" ++ path ++ "'")), w)
  | None => (Raise (Exn FileNotFoundError ("[Errno 2] No such file or directory: '" ++ path ++ "'")), w)
  end.

Definition os_unlink := os_remove.
End FileSystem.

(** ** sftp_upload.py *)

Inductive payload :=
  | Bytes (b : list byte)
  | Stream (read : outcome (list byte)).

Record Result := mkResult { status : string; message : string }.

Module SftpUpload.
Section SftpUpload.
Variable env : Env.

Definition secret_name (project_id secret_id version_id : string) : string :=
  "projects/" ++ project_id ++ "/secrets/" ++ secret_id ++ "/versions/" ++ version_id.

(** The answer of [access_secret_version] is the payload already decoded; a
    payload that is not UTF-8 is one of the exceptions it may raise. *)
Definition get_secret (project_id secret_id version_id : string) : M string :=
  lift (secret_client env);;
  let name := secret_name project_id secret_id version_id in
  call (EvSecret name) (access_secret_version env name).

(** [version_id: str = "latest"] *)
Definition get_secret_latest (project_id secret_id : string) : M string :=
  get_secret project_id secret_id "latest".

Definition set_world (f : World → World) : M unit := fun w => (Ret tt, f w).

(** [paramiko.Transport((host, port))] opens the connection. *)
Definition Transport (host : string) (port : Z) : M unit :=
  call (EvTransport host port) (sftp_transport env host port);;
  set_world (with_transport true).

Definition transport_connect (username password : string) : M unit :=
  call (EvConnect username password) (sftp_connect env username password).

Definition SFTPClient_from_transport : M unit :=
  call EvSftpOpen (sftp_from_transport env);;
  set_world (with_sftp true).

Definition sftp_chdir (directory : string) : M unit :=
  call (EvChdir directory) (remote_chdir env directory).

(** [sftp.put(localpath, remotepath)] reads the local file, then sends it. *)
Definition sftp_put (localpath remotepath : string) : M unit := fun w =>
  match fs w !! localpath with
  | Some (File c) =>
      call (EvPut localpath remotepath (Some c)) (remote_put env remotepath c) w
  | Some Dir =>
      call (EvPut localpath remotepath None)
        (Raise (Exn IsADirectoryError ("[Errno 21] Is a directory: '" ++ localpath ++ "'"))) w
  | None =>
      call (EvPut localpath remotepath None)
        (Raise (Exn FileNotFoundError ("[Errno 2] No such file or directory: '" ++ localpath ++ "'"))) w
  end.

(** paramiko's [close] methods do not raise; closing the transport closes
    the sessions over it. *)
Definition sftp_close : M unit :=
  emit EvSftpClose;;
  set_world (with_sftp false).
Definition transport_close : M unit :=
  emit EvTransportClose;;
  set_world (fun w => with_sftp false (with_transport false w)).

(** Lines 26-43: after the session is open.  [Some b] is an early
    [return b] from inside the inner [try]. *)
Definition navigate (sftp_directory : string) : M (option bool) :=
  try_except_IOError
    (sftp_chdir sftp_directory;; mret None)
    (logging_error ("Directory " ++ sftp_directory ++ " not found or inaccessible");;
     transport_close;;
     mret (Some false)).

Definition upload_to_sftp (local_file_path remote_filename project_id : string) : M bool :=
  try_except
    (sftp_host ← get_secret_latest project_id "SFTP_HOST";
     sftp_username ← get_secret_latest project_id "SFTP_USERNAME";
     sftp_password ← get_secret_latest project_id "SFTP_PASSWORD";
     sftp_directory ← get_secret_latest project_id "SFTP_DIRECTORY";
     Transport sftp_host 22;;
     transport_connect sftp_username sftp_password;;
     SFTPClient_from_transport;;
     early ← navigate sftp_directory;
     match early with
     | Some b => mret b
     | None =>
         let remote_path := remote_filename in
         sftp_put local_file_path remote_path;;
         sftp_close;;
         transport_close;;
         logging_info ("Successfully uploaded " ++ local_file_path ++ " to "
                       ++ sftp_directory ++ "/" ++ remote_filename);;
         mret true
     end)
    (fun e =>
       logging_error ("Error uploading file to SFTP: " ++ str e);;
       mret false).

(** Lines 54-59: both branches open [temp_path] for writing, then write. *)
Definition save_payload (data : payload) (temp_path : string) : M unit :=
  match data with
  | Bytes b =>
      open_wb env temp_path;;
      write temp_path b
  | Stream read =>
      open_wb env temp_path;;
      b ← lift read;
      write temp_path b
  end.

Definition remove_if_exists (path : string) : M unit :=
  ex ← os_path_exists path;
  if (ex : bool) then os_remove path else mret tt.

Definition process_csv_upload (data : payload) (filename project_id : string) : M Result :=
  try_except
    (let temp_path := "/tmp/" ++ filename in
     save_payload data temp_path;;
     success ← upload_to_sftp temp_path filename project_id;
     remove_if_exists temp_path;;
     if (success : bool)
     then mret (mkResult "success" ("File " ++ filename ++ " uploaded successfully"))
     else mret (mkResult "error" "Failed to upload file"))
    (fun e =>
       logging_error ("Error processing upload: " ++ str e);;
       remove_if_exists ("/tmp/" ++ filename);;
       mret (mkResult "error" (str e))).
End SftpUpload.
End SftpUpload.

(** ** The [csv] module, dialect [excel]

    [csv.writer(f)] and [csv.reader(f)] with their defaults: delimiter comma,
    quote character the double quote, [doublequote], line terminator CR LF,
    [QUOTE_MINIMAL], no escape character, not [strict].  The writer is what
    [main.py] calls; the reader is the standard reader the exported file is
    meant for.  Both follow CPython's [_csv.c].  The reader refuses a field
    of more than [field_size_limit] characters: [read_default] is the reader
    as it comes, [read] the reader with the limit lifted, which tells what a
    file holds whatever the size of its fields. *)
Module Csv.
Local Open Scope list_scope.

Definition text := list ascii.

Definition delimiter : ascii := ",".
Definition quotechar : ascii := "034".
Definition CR : ascii := "013".
Definition LF : ascii := "010".
Definition lineterminator : text := [CR; LF].

Definition is_nl (c : ascii) : bool := Ascii.eqb c LF || Ascii.eqb c CR.

(** *** Writer *)

(** The characters that make [join_append_data] quote a field. *)
Definition special (c : ascii) : bool :=
  Ascii.eqb c delimiter || Ascii.eqb c quotechar
  || existsb (Ascii.eqb c) lineterminator.

(** Copy of the field data, a quote character doubled. *)
Fixpoint copy_data (field : text) : text :=
  match field with
  | [] => []
  | c :: rest =>
      if Ascii.eqb c quotechar then quotechar :: c :: copy_data rest
      else c :: copy_data rest
  end.

Definition join_append (field : text) (quoted : bool) : text :=
  if quoted || existsb special field
  then quotechar :: copy_data field ++ [quotechar]
  else field.

(** The loop of [csv_writerow]: a delimiter before every field but the
    first. *)
Fixpoint join_fields (num_fields : nat) (fields : list text) : text :=
  match fields with
  | [] => []
  | f :: rest =>
      (match num_fields with O => [] | S _ => [delimiter] end)
      ++ join_append f false ++ join_fields (S num_fields) rest
  end.

(** [writer.writerow(fields)]: the text written to the file.  A record of
    one empty field is written as a quoted empty field. *)
Definition writerow (fields : list text) : text :=
  let rec := join_fields 0 fields in
  let rec :=
    if (0 <? length fields)%nat && (length rec =? 0)%nat
    then join_append [] true
    else rec in
  rec ++ lineterminator.

(** *** Reader *)

Inductive parser_state :=
  | START_RECORD
  | START_FIELD
  | IN_FIELD
  | IN_QUOTED_FIELD
  | QUOTE_IN_QUOTED_FIELD
  | EAT_CRNL.

Record reader := mkReader {
  state : parser_state;
  field : text;
  fields : list text
}.

Definition parse_reset : reader := mkReader START_RECORD [] [].

(** [csv.field_size_limit()], as the module sets it. *)
Definition field_size_limit : N := 131072.

Section Reader.
(** The field size limit in force; [None] is the limit lifted, as by
    [csv.field_size_limit(sys.maxsize)]. *)
Variable field_limit : option N.

(** The current field has reached the limit. *)
Definition at_limit (field_len : nat) : bool :=
  match field_limit with
  | Some limit => (limit <=? N.of_nat field_len)%N
  | None => false
  end.

Definition parse_save_field (st : parser_state) (r : reader) : reader :=
  mkReader st [] (fields r ++ [field r]).

(** [parse_add_char]; [None] is the raised [_csv.Error], field larger than
    field limit. *)
Definition parse_add_char (st : parser_state) (c : ascii) (r : reader) : option reader :=
  if at_limit (length (field r)) then None
  else Some (mkReader st (field r ++ [c]) (fields r)).

Definition set_state (st : parser_state) (r : reader) : reader :=
  mkReader st (field r) (fields r).

(** The case [START_FIELD] of [parse_process_char]; the character [None] is
    the end-of-line marker [EOL]. *)
Definition start_field (r : reader) (c : option ascii) : option reader :=
  match c with
  | None => Some (parse_save_field START_RECORD r)
  | Some ch =>
      if is_nl ch then Some (parse_save_field EAT_CRNL r)
      else if Ascii.eqb ch quotechar then Some (set_state IN_QUOTED_FIELD r)
      else if Ascii.eqb ch delimiter then Some (parse_save_field START_FIELD r)
      else parse_add_char IN_FIELD ch r
  end.

(** [parse_process_char]; the result [None] is a raised [_csv.Error]. *)
Definition parse_process_char (r : reader) (c : option ascii) : option reader :=
  match state r with
  | START_RECORD =>
      match c with
      | None => Some r
      | Some ch =>
          if is_nl ch then Some (set_state EAT_CRNL r)
          else start_field r c
      end
  | START_FIELD => start_field r c
  | IN_FIELD =>
      match c with
      | None => Some (parse_save_field START_RECORD r)
      | Some ch =>
          if is_nl ch then Some (parse_save_field EAT_CRNL r)
          else if Ascii.eqb ch delimiter then Some (parse_save_field START_FIELD r)
          else parse_add_char IN_FIELD ch r
      end
  | IN_QUOTED_FIELD =>
      match c with
      | None => Some r
      | Some ch =>
          if Ascii.eqb ch quotechar then Some (set_state QUOTE_IN_QUOTED_FIELD r)
          else parse_add_char IN_QUOTED_FIELD ch r
      end
  | QUOTE_IN_QUOTED_FIELD =>
      match c with
      | None => Some (parse_save_field START_RECORD r)
      | Some ch =>
          if Ascii.eqb ch quotechar then parse_add_char IN_QUOTED_FIELD ch r
          else if Ascii.eqb ch delimiter then Some (parse_save_field START_FIELD r)
          else if is_nl ch then Some (parse_save_field EAT_CRNL r)
          else parse_add_char IN_FIELD ch r
      end
  | EAT_CRNL =>
      match c with
      | None => Some (set_state START_RECORD r)
      | Some ch => if is_nl ch then Some r else None
      end
  end.

(** The characters of one line, in order. *)
Fixpoint feed (r : reader) (line : text) : option reader :=
  match line with
  | [] => Some r
  | c :: rest =>
      match parse_process_char r (Some c) with
      | Some r' => feed r' rest
      | None => None
      end
  end.

(** One line: its characters, then [EOL]. *)
Definition feed_line (r : reader) (line : text) : option reader :=
  match feed r line with
  | Some r' => parse_process_char r' None
  | None => None
  end.

Definition in_quoted_field (r : reader) : bool :=
  match state r with IN_QUOTED_FIELD => true | _ => false end.

Definition at_start_record (r : reader) : bool :=
  match state r with START_RECORD => true | _ => false end.

(** [list(csv.reader(lines))]: [Reader_iternext] takes lines until the
    state is [START_RECORD] again and yields the fields; at the end of the
    input a record still open is yielded as it stands. *)
Fixpoint read_lines (r : reader) (lines : list text) : option (list (list text)) :=
  match lines with
  | [] =>
      if negb (Nat.eqb (length (field r)) 0) || in_quoted_field r
      then Some [fields (parse_save_field (state r) r)]
      else Some []
  | line :: rest =>
      match feed_line r line with
      | None => None
      | Some r' =>
          if at_start_record r'
          then option_map (cons (fields r')) (read_lines parse_reset rest)
          else read_lines r' rest
      end
  end.

(** Iterating a file opened with [newline='']: lines end after LF, after
    CR LF and after a CR that no LF follows, and keep their ending. *)
Fixpoint splitlines_from (cur : text) (s : text) : list text :=
  match s with
  | [] => match cur with [] => [] | _ => [cur] end
  | c :: s' =>
      if Ascii.eqb c LF then (cur ++ [c]) :: splitlines_from [] s'
      else if Ascii.eqb c CR then
        match s' with
        | c' :: s'' =>
            if Ascii.eqb c' LF then (cur ++ [c; c']) :: splitlines_from [] s''
            else (cur ++ [c]) :: splitlines_from [] s'
        | [] => (cur ++ [c]) :: splitlines_from [] s'
        end
      else splitlines_from (cur ++ [c]) s'
  end.

Definition splitlines (s : text) : list text := splitlines_from [] s.

(** [list(csv.reader(f))] on a file holding [s], under the limit in force. *)
Definition read_under_limit (s : text) : option (list (list text)) :=
  read_lines parse_reset (splitlines s).

(** *** The reader as one pass over the characters

    The same reader with the lines found on the way: after a line ending
    the marker [EOL] is processed, and a record is yielded if that closes
    it.  [pending] says that the current line has characters.  This is the
    form the proofs use; [read_run] below shows that it is the reader. *)
Definition end_line (r : reader) (rest : reader → option (list (list text)))
    : option (list (list text)) :=
  match parse_process_char r None with
  | None => None
  | Some r' =>
      if at_start_record r'
      then option_map (cons (fields r')) (rest parse_reset)
      else rest r'
  end.

Fixpoint run (r : reader) (pending : bool) (s : text) : option (list (list text)) :=
  match s with
  | [] => if pending then end_line r (fun r' => read_lines r' []) else read_lines r []
  | c :: s' =>
      match parse_process_char r (Some c) with
      | None => None
      | Some r1 =>
          if Ascii.eqb c LF then end_line r1 (fun r' => run r' false s')
          else if Ascii.eqb c CR then
            match s' with
            | c' :: s'' =>
                if Ascii.eqb c' LF then
                  match parse_process_char r1 (Some c') with
                  | None => None
                  | Some r2 => end_line r2 (fun r' => run r' false s'')
                  end
                else end_line r1 (fun r' => run r' false s')
            | [] => end_line r1 (fun r' => run r' false s')
            end
          else run r1 true s'
      end
  end.

(** A field the reader takes without reaching the limit. *)
Definition field_fits (f : text) : bool :=
  match field_limit with
  | Some limit => (N.of_nat (length f) <=? limit)%N
  | None => true
  end.
End Reader.

(** [list(csv.reader(f))] with the module's defaults: the standard reader. *)
Definition read_default (s : text) : option (list (list text)) :=
  read_under_limit (Some field_size_limit) s.

(** The reader with the field size limit lifted: what a file holds,
    whatever the size of its fields. *)
Definition read (s : text) : option (list (list text)) :=
  read_under_limit None s.

Definition nonempty (l : text) : bool := match l with [] => false | _ => true end.

(** A reader about to start a field: nothing of it read so far. *)
Definition at_field_start (r : reader) : Prop :=
  (state r = START_RECORD ∨ state r = START_FIELD) ∧ field r = [].

(** A reader that has read a whole field and not yet what ends it. *)
Definition closes_field (r : reader) : Prop :=
  state r = START_FIELD ∨ state r = IN_FIELD ∨ state r = QUOTE_IN_QUOTED_FIELD.
End Csv.

(** ** main.py *)

Module Main.
Section Main.
Variable env : Env.

Definition SPREADSHEET_ID : string := "1h9QM4_hxLYfpGIWMXXmMg0SjpdNfS_u5jIwGISzxLQs".
Definition CLOUD_RUN_URL : string :=
  "https://ramp-sftp-uploader-546663743745.europe-west2.run.app/upload".
Definition DELEGATED_USER : string := "serviceaccount@wondle.io".

Definition PROJECT : string := "wondle-reports-452716".
Definition SCOPES : list string :=
  ["https://www.googleapis.com/auth/bigquery";
   "https://www.googleapis.com/auth/drive.readonly"].
Definition QUERY : string :=
  "
        SELECT * 
        FROM `wondle-reports-452716.wondle_scans.ramp_report_draft` 
        ".

Definition NL : string := String "010" "".

(** [credentials.with_subject(subject)] *)
Definition with_subject (c : Credentials) (subject : string) : Credentials :=
  mkCredentials (cred_info c) (cred_scopes c) (Some subject).

(** Lines 21-38: the delegated credentials, from the environment. *)
Definition delegated_credentials : M Credentials :=
  let encoded_key := os_environ env "SERVICE_ACCOUNT_KEY" in
  match encoded_key with
  | None | Some "" =>
      raise (Exn ValueError "SERVICE_ACCOUNT_KEY environment variable is not set")
  | Some encoded_key =>
      raw ← lift (b64decode env encoded_key);
      key_json ← lift (decode_utf8 env raw);
      info ← lift (json_loads env key_json);
      credentials ← lift (from_service_account_info env info SCOPES);
      mret (with_subject credentials DELEGATED_USER)
  end.

(** Lines 41-54: [client.query(query).result()]. *)
Definition run_query (credentials : Credentials) : M ResultSet :=
  call (EvQuery PROJECT (cred_subject credentials) QUERY)
       (bq_query env PROJECT credentials QUERY);;
  call EvResult (bq_result env).

(** [os.path.basename]: what follows the last slash. *)
Fixpoint basename_from (acc p : string) : string :=
  match p with
  | EmptyString => acc
  | String c rest =>
      if Ascii.eqb c "/" then basename_from "" rest
      else basename_from (acc ++ String c "") rest
  end.
Definition basename (p : string) : string := basename_from "" p.

(** [tempfile._mkstemp_inner]: the first candidate name that does not
    exist is created, exclusively. *)
Fixpoint mkstemp_inner (names : list string) (suffix : string) : M string :=
  match names with
  | [] => raise (Exn FileExistsError "[Errno 17] No usable temporary file name found")
  | name :: rest =>
      let file := tempdir env ++ "/" ++ "tmp" ++ name ++ suffix in
      fun w =>
        match fs w !! file with
        | Some _ => mkstemp_inner rest suffix w
        | None =>
            match os_open_error env file with
            | Some e => (Raise e, w)
            | None => (Ret file, with_fs (<[file := File []]>) w)
            end
        end
  end.

(** [tempfile.NamedTemporaryFile(mode='w+', delete=False, suffix=...)];
    the result is [temp.name]. *)
Definition NamedTemporaryFile (suffix : string) : M string :=
  mkstemp_inner (tmp_names env) suffix.

(** Text written to a file goes through the encoding. *)
Definition encode (t : Csv.text) : list byte := map byte_of_ascii t.
Definition decode (b : list byte) : Csv.text := map ascii_of_byte b.

(** [csv_writer.writerow(fields)] on the writer over the file at [temp]. *)
Definition csv_writerow (temp : string) (fields : list Csv.text) : M unit :=
  write temp (encode (Csv.writerow fields)).

(** How the writer turns a value into field text: [None] is the empty
    field, a [str] is itself, anything else is its [str()]. *)
Definition field_text (v : value) : Csv.text :=
  match v with
  | VNone => []
  | VStr s => list_ascii_of_string s
  | VInt n => list_ascii_of_string (pretty n)
  | VBool true => list_ascii_of_string "True"
  | VBool false => list_ascii_of_string "False"
  | VOther rendered => list_ascii_of_string rendered
  end.

(** [repr(s)] of a [str]: in single quotes, or in double quotes when [s]
    has a single quote and no double quote; the quote in use and the
    backslash are escaped, control characters are written [\t], [\n], [\r]
    or [\xNN].  Characters outside ASCII are kept, as [repr] keeps the
    printable ones. *)
Definition hex_digit (n : N) : ascii :=
  nth (N.to_nat n) (list_ascii_of_string "0123456789abcdef") "0"%char.

Definition backslash : ascii := "092".

Definition repr_char (quote c : ascii) : string :=
  if Ascii.eqb c quote || Ascii.eqb c backslash then String backslash (String c "")
  else if Ascii.eqb c "009" then String backslash "t"
  else if Ascii.eqb c "010" then String backslash "n"
  else if Ascii.eqb c "013" then String backslash "r"
  else if (N_of_ascii c <? 32)%N || (N_of_ascii c =? 127)%N
  then String backslash
         (String "x" (String (hex_digit (N_of_ascii c / 16))
                        (String (hex_digit (N_of_ascii c mod 16)) "")))
  else String c "".

Definition has_char (c : ascii) (s : string) : bool :=
  existsb (Ascii.eqb c) (list_ascii_of_string s).

Definition repr (s : string) : string :=
  let quote := if has_char "039" s && negb (has_char "034" s) then "034"%char
               else "039"%char in
  String quote (String.concat "" (map (repr_char quote) (list_ascii_of_string s))
                ++ String quote "").

(** [row[column]]; for a column the row does not have the library raises
    [KeyError('no row field {!r}'.format(column))], and the [str()] of a
    [KeyError] is the [repr] of its argument. *)
Definition row_getitem (row : gmap string value) (column : string) : M value :=
  match row !! column with
  | Some v => mret v
  | None => raise (Exn KeyError (repr ("no row field " ++ repr column)))
  end.

(** [[row[column] for column in column_names]] *)
Fixpoint row_values (row : gmap string value) (column_names : list string) : M (list value) :=
  match column_names with
  | [] => mret []
  | column :: rest =>
      v ← row_getitem row column;
      vs ← row_values row rest;
      mret (v :: vs)
  end.

(** Lines 68-73: the loop over the rows the iterator yields. *)
Fixpoint write_rows (temp : string) (column_names : list string)
    (rows : list (gmap string value)) (row_count : nat) : M nat :=
  match rows with
  | [] => mret row_count
  | row :: rest =>
      values ← row_values row column_names;
      csv_writerow temp (map field_text values);;
      write_rows temp column_names rest (row_count + 1)
  end.

(** Lines 57-76.  The [with] block closes the file on every exit and does
    nothing else, so an exception inside it leaves the file as written so
    far. *)
Definition write_csv (results : ResultSet) : M (string * nat) :=
  let column_names := rs_schema results in
  temp ← NamedTemporaryFile ".csv";
  csv_writerow temp (map list_ascii_of_string column_names);;
  emit EvFetch;;
  row_count ← write_rows temp column_names (rs_rows results) 0;
  match rs_error results with
  | Some e => raise e
  | None => mret (temp, row_count)
  end.

(** Lines 21-76 *)
Definition export_stage : M (string * nat) :=
  credentials ← delegated_credentials;
  results ← run_query credentials;
  write_csv results.

(** Lines 79-91 *)
Definition relay_stage (temp_path : string) (row_count : nat) : M (string * Z) :=
  csv_file ← read_rb temp_path;
  response ← call (EvPost CLOUD_RUN_URL (basename temp_path) csv_file "text/csv")
                  (requests_post env CLOUD_RUN_URL (basename temp_path) csv_file "text/csv");
  os_unlink temp_path;;
  if (status_code response =? 200)%Z
  then mret ("Successfully exported " ++ pretty row_count
             ++ " rows and uploaded to RAMP Data Upload", 200%Z)
  else mret ("Error uploading to Cloud Run: " ++ text response, 500%Z).

Definition export_and_upload (request : string) : M (string * Z) :=
  try_except
    ('(temp_path, row_count) ← export_stage;
     relay_stage temp_path row_count)
    (fun e =>
       mret ("Error: " ++ str e ++ NL ++ NL ++ "Details: " ++ format_exc env e, 500%Z)).
End Main.
End Main.

(** ** Vocabulary of the statements *)

(** The calls made between two worlds of one run. *)
Definition events_since (w w' : World) : list event :=
  drop (length (trace w)) (trace w').

(** The four lookups of [upload_to_sftp] succeed, with these values. *)
Definition secrets_resolve (env : Env) (project_id host username password directory : string) : Prop :=
  secret_client env = Ret tt
  ∧ access_secret_version env (SftpUpload.secret_name project_id "SFTP_HOST" "latest") = Ret host
  ∧ access_secret_version env (SftpUpload.secret_name project_id "SFTP_USERNAME" "latest") = Ret username
  ∧ access_secret_version env (SftpUpload.secret_name project_id "SFTP_PASSWORD" "latest") = Ret password
  ∧ access_secret_version env (SftpUpload.secret_name project_id "SFTP_DIRECTORY" "latest") = Ret directory.

(** A step of [upload_to_sftp] after the transport is open raises, and it is
    not the directory change raising an [IOError]: authentication, the
    opening of the session, the directory change with another exception, or
    the upload ([local] is what the local path holds). *)
Inductive step_fails (env : Env) (local : option node) (remote username password directory : string) : Prop :=
  | connect_fails e :
      sftp_connect env username password = Raise e →
      step_fails env local remote username password directory
  | session_fails e :
      sftp_connect env username password = Ret tt →
      sftp_from_transport env = Raise e →
      step_fails env local remote username password directory
  | chdir_fails e :
      sftp_connect env username password = Ret tt →
      sftp_from_transport env = Ret tt →
      remote_chdir env directory = Raise e →
      is_IOError e = false →
      step_fails env local remote username password directory
  | put_fails_sending c e :
      sftp_connect env username password = Ret tt →
      sftp_from_transport env = Ret tt →
      remote_chdir env directory = Ret tt →
      local = Some (File c) →
      remote_put env remote c = Raise e →
      step_fails env local remote username password directory
  | put_fails_reading :
      sftp_connect env username password = Ret tt →
      sftp_from_transport env = Ret tt →
      remote_chdir env directory = Ret tt →
      (∀ c, local ≠ Some (File c)) →
      step_fails env local remote username password directory.

(** Every row of the result set has every column of the schema. *)
Definition rows_match_schema (results : ResultSet) : Prop :=
  Forall (fun row => Forall (fun column => is_Some (row !! column)) (rs_schema results))
         (rs_rows results).

(** The text of the field a row has in a column. *)
Definition cell (row : gmap string value) (column : string) : Csv.text :=
  Main.field_text (default VNone (row !! column)).

(** The records an export of [results] should read back as. *)
Definition header_record (results : ResultSet) : list Csv.text :=
  map list_ascii_of_string (rs_schema results).
Definition records_of (columns : list string) (rows : list (gmap string value))
    : list (list Csv.text) :=
  map (fun row => map (cell row) columns) rows.
Definition data_records (results : ResultSet) : list (list Csv.text) :=
  records_of (rs_schema results) (rs_rows results).

(** The text of the export file for [results]. *)
Definition export_text (results : ResultSet) : Csv.text :=
  concat (map Csv.writerow (header_record results :: data_records results)).

(** Every column name of [results] and every field, as the writer writes
    it, has at most [Csv.field_size_limit] characters. *)
Definition fields_within_limit (results : ResultSet) : bool :=
  forallb (forallb (Csv.field_fits (Some Csv.field_size_limit)))
          (header_record results :: data_records results).

(** The world a run of [export_and_upload] ends in: these files, these
    calls after the ones of [w], the connections as they were. *)
Definition after (w : World) (files : gmap string node) (evs : list event) : World :=
  mkWorld files (trace w ++ evs) (transport_active w) (sftp_active w).

(** The answer of the handler of [export_and_upload] to the exception [e]. *)
Definition error_response (env : Env) (e : exn) : string * Z :=
  ("Error: " ++ str e ++ Main.NL ++ Main.NL ++ "Details: " ++ format_exc env e, 500%Z).

(** The one query and the one POST [export_and_upload] makes. *)
Definition the_query : event :=
  EvQuery Main.PROJECT (Some Main.DELEGATED_USER) Main.QUERY.
Definition the_post (temp : string) (content : list byte) : event :=
  EvPost Main.CLOUD_RUN_URL (Main.basename temp) content "text/csv".

(** [s] has a slash in it. *)
Fixpoint has_slash (s : string) : bool :=
  match s with
  | EmptyString => false
  | String c rest => Ascii.eqb c "/" || has_slash rest
  end.

(** ** Scenarios *)

Definition secrets_of_project : list (string * string) :=
  [(SftpUpload.secret_name "ramp" "SFTP_HOST" "latest", "sftp.example.com");
   (SftpUpload.secret_name "ramp" "SFTP_USERNAME" "latest", "uploader");
   (SftpUpload.secret_name "ramp" "SFTP_PASSWORD" "latest", "hunter2");
   (SftpUpload.secret_name "ramp" "SFTP_DIRECTORY" "latest", "/incoming")].

Fixpoint assoc (k : string) (l : list (string * string)) : option string :=
  match l with
  | [] => None
  | (k', v) :: rest => if String.eqb k k' then Some v else assoc k rest
  end.

(** The result set of the specification's scenario: three rows, two columns,
    a comma in the last name. *)
Definition three_rows : ResultSet :=
  mkResultSet ["id"; "name"]
    [ {[ "id" := VInt 1; "name" := VStr "Ada" ]};
      {[ "id" := VInt 2; "name" := VStr "Grace" ]};
      {[ "id" := VInt 3; "name" := VStr "Smith, J." ]} ]
    None.

(** An environment in which everything works, but for the three answers
    given: the directory change, the upload and the relay. *)
Definition scenario (chdir put : outcome unit) (post : outcome Response) : Env :=
  {| os_environ := fun k => if String.eqb k "SERVICE_ACCOUNT_KEY" then Some "e30=" else None;
     os_open_error := fun _ => None;
     tempdir := "/tmp";
     tmp_names := ["k3x9_q2a"];
     format_exc := fun e => "Traceback (most recent call last): " ++ exn_msg e;
     b64decode := fun _ => Ret [];
     decode_utf8 := fun _ => Ret "{}";
     json_loads := fun s => Ret s;
     from_service_account_info := fun info scopes => Ret (mkCredentials info scopes None);
     secret_client := Ret tt;
     access_secret_version := fun name =>
       match assoc name secrets_of_project with
       | Some v => Ret v
       | None => Raise (Exn GoogleAPIError ("404 Secret not found: " ++ name))
       end;
     sftp_transport := fun _ _ => Ret tt;
     sftp_connect := fun _ _ => Ret tt;
     sftp_from_transport := Ret tt;
     remote_chdir := fun _ => chdir;
     remote_put := fun _ _ => put;
     bq_query := fun _ _ _ => Ret tt;
     bq_result := Ret three_rows;
     requests_post := fun _ _ _ _ => post |}.

Definition all_well : Env := scenario (Ret tt) (Ret tt) (Ret (mkResponse 200 "OK")).

(** The same with [SERVICE_ACCOUNT_KEY] unset. *)
Definition without_key : Env :=
  {| os_environ := fun _ => None;
     os_open_error := os_open_error all_well;
     tempdir := tempdir all_well;
     tmp_names := tmp_names all_well;
     format_exc := format_exc all_well;
     b64decode := b64decode all_well;
     decode_utf8 := decode_utf8 all_well;
     json_loads := json_loads all_well;
     from_service_account_info := from_service_account_info all_well;
     secret_client := secret_client all_well;
     access_secret_version := access_secret_version all_well;
     sftp_transport := sftp_transport all_well;
     sftp_connect := sftp_connect all_well;
     sftp_from_transport := sftp_from_transport all_well;
     remote_chdir := remote_chdir all_well;
     remote_put := remote_put all_well;
     bq_query := bq_query all_well;
     bq_result := bq_result all_well;
     requests_post := requests_post all_well |}.

(** [all_well] with other answers on the way to the export: of the base64
    decoding of the key, of the query, and of the wait for its result. *)
Definition export_scenario (decoded : outcome (list byte)) (query : outcome unit)
    (result : outcome ResultSet) : Env :=
  {| os_environ := os_environ all_well;
     os_open_error := os_open_error all_well;
     tempdir := tempdir all_well;
     tmp_names := tmp_names all_well;
     format_exc := format_exc all_well;
     b64decode := fun _ => decoded;
     decode_utf8 := decode_utf8 all_well;
     json_loads := json_loads all_well;
     from_service_account_info := from_service_account_info all_well;
     secret_client := secret_client all_well;
     access_secret_version := access_secret_version all_well;
     sftp_transport := sftp_transport all_well;
     sftp_connect := sftp_connect all_well;
     sftp_from_transport := sftp_from_transport all_well;
     remote_chdir := remote_chdir all_well;
     remote_put := remote_put all_well;
     bq_query := fun _ _ _ => query;
     bq_result := result;
     requests_post := requests_post all_well |}.

(** A table with two columns and no rows. *)
Definition no_rows : ResultSet := mkResultSet ["id"; "name"] [] None.

(** One row with one column, [note], that holds [v]. *)
Definition one_field (v : value) : ResultSet :=
  mkResultSet ["note"] [ {[ "note" := v ]} ] None.

(** A text of one character more than the reader's field size limit. *)
Definition long_text : Csv.text :=
  repeat "a"%char (N.to_nat (Csv.field_size_limit + 1)).

(** A machine on which only the directory [/tmp/] exists. *)
Definition fresh_world : World :=
  mkWorld {[ "/tmp/" := Dir ]} [] false false.

(** * Facts *)

(** The scenario of the specification: the last line of the export. *)
Example csv_write_smith :
  Csv.writerow [list_ascii_of_string "3"; list_ascii_of_string "Smith, J."]
  = (list_ascii_of_string "3," ++ [Csv.quotechar] ++ list_ascii_of_string "Smith, J."
     ++ [Csv.quotechar; Csv.CR; Csv.LF])%list.
Proof. reflexivity. Qed.

Example csv_read_smith :
  Csv.read (Csv.writerow [list_ascii_of_string "id"; list_ascii_of_string "name"]
            ++ Csv.writerow [list_ascii_of_string "3"; list_ascii_of_string "Smith, J."]
            ++ Csv.writerow [[]] ++ Csv.writerow []
            ++ Csv.writerow [[Csv.CR]; [Csv.LF; Csv.quotechar]; []])%list
  = Some [[list_ascii_of_string "id"; list_ascii_of_string "name"];
          [list_ascii_of_string "3"; list_ascii_of_string "Smith, J."];
          [[]]; []; [[Csv.CR]; [Csv.LF; Csv.quotechar]; []]].
Proof. reflexivity. Qed.

(** The same file under the field size limit of the standard reader. *)
Example csv_read_default_smith :
  Csv.read_default
    (Csv.writerow [list_ascii_of_string "id"; list_ascii_of_string "name"]
     ++ Csv.writerow [list_ascii_of_string "3"; list_ascii_of_string "Smith, J."])%list
  = Some [[list_ascii_of_string "id"; list_ascii_of_string "name"];
          [list_ascii_of_string "3"; list_ascii_of_string "Smith, J."]].
Proof. reflexivity. Qed.

(** A row without the column [name]: the text of the [KeyError] is the
    message in double quotes, the column in single quotes inside it. *)
Example row_getitem_missing :
  (Main.row_getitem ∅ "name" fresh_world).1
  = Raise (Exn KeyError (String Csv.quotechar
                           ("no row field 'name'" ++ String Csv.quotechar ""))).
Proof. reflexivity. Qed.

(** ** The reader reads what the writer wrote *)

Module CsvFacts.
Import Csv.
Local Open Scope list_scope.

Section Limit.
Variable lim : option N.

Lemma feed_app r l1 l2 :
  feed lim r (l1 ++ l2)
  = match feed lim r l1 with Some r' => feed lim r' l2 | None => None end.
Proof.
  revert r. induction l1 as [|c l1 IH]; intros r; simpl; [reflexivity|].
  destruct (parse_process_char lim r (Some c)); [apply IH | reflexivity].
Qed.

Lemma read_lines_cons r0 cur tail k r :
  feed lim r0 cur = Some r →
  read_lines lim r0 ((cur ++ tail) :: k)
  = match feed lim r tail with
    | Some r1 => end_line lim r1 (fun r' => read_lines lim r' k)
    | None => None
    end.
Proof.
  intros Hf. simpl. unfold feed_line. rewrite feed_app, Hf.
  destruct (feed lim r tail) as [r1|]; [|reflexivity].
  unfold end_line. destruct (parse_process_char lim r1 None); reflexivity.
Qed.

Lemma end_line_ext r f g : (∀ r', f r' = g r') → end_line lim r f = end_line lim r g.
Proof.
  intros H. unfold end_line. destruct (parse_process_char lim r None) as [r'|]; [|reflexivity].
  rewrite !H. reflexivity.
Qed.

Lemma read_lines_rejected r0 cur tail k :
  feed lim r0 cur = None → read_lines lim r0 ((cur ++ tail) :: k) = None.
Proof. intros Hf. simpl. unfold feed_line. rewrite feed_app, Hf. reflexivity. Qed.

Lemma read_lines_run_nil cur r0 :
  read_lines lim r0 (splitlines_from cur [])
  = match feed lim r0 cur with
    | Some r => run lim r (nonempty cur) []
    | None => None
    end.
Proof.
  destruct cur as [|c cur]; [reflexivity|].
  cbn [splitlines_from nonempty run].
  rewrite <- (app_nil_r (c :: cur)) at 1.
  destruct (feed lim r0 (c :: cur)) as [r|] eqn:Hf.
  - rewrite (read_lines_cons _ _ _ _ _ Hf). reflexivity.
  - apply read_lines_rejected, Hf.
Qed.

Lemma read_lines_run_aux n :
  ∀ s, (length s ≤ n)%nat → ∀ cur r0,
  read_lines lim r0 (splitlines_from cur s)
  = match feed lim r0 cur with
    | Some r => run lim r (nonempty cur) s
    | None => None
    end.
Proof.
  induction n as [|n IH]; intros s Hn cur r0.
  { destruct s; [apply read_lines_run_nil | simpl in Hn; lia]. }
  destruct s as [|c s']; [apply read_lines_run_nil|].
  simpl in Hn.
  destruct (feed lim r0 cur) as [r|] eqn:Hf.
  - simpl. destruct (Ascii.eqb c LF) eqn:Hlf.
    + rewrite (read_lines_cons _ _ _ _ _ Hf). simpl.
      destruct (parse_process_char lim r (Some c)) as [r1|]; [|reflexivity].
      apply end_line_ext. intros r'. apply (IH s'); lia.
    + destruct (Ascii.eqb c CR) eqn:Hcr.
      * destruct s' as [|c' s''].
        -- rewrite (read_lines_cons _ _ _ _ _ Hf). simpl.
           destruct (parse_process_char lim r (Some c)) as [r1|]; [|reflexivity].
           apply end_line_ext. intros r'. reflexivity.
        -- destruct (Ascii.eqb c' LF) eqn:Hlf'.
           ++ rewrite (read_lines_cons _ _ _ _ _ Hf). simpl.
              destruct (parse_process_char lim r (Some c)) as [r1|]; [|reflexivity].
              destruct (parse_process_char lim r1 (Some c')) as [r2|]; [|reflexivity].
              apply end_line_ext. intros r'. apply (IH s''); simpl in Hn; lia.
           ++ rewrite (read_lines_cons _ _ _ _ _ Hf). simpl.
              destruct (parse_process_char lim r (Some c)) as [r1|]; [|reflexivity].
              apply end_line_ext. intros r'.
              assert (Hlen : (length (c' :: s'') ≤ n)%nat) by (simpl in *; lia).
              exact (IH (c' :: s'') Hlen [] r').
      * rewrite (IH s') by lia. rewrite feed_app, Hf. simpl.
        destruct (parse_process_char lim r (Some c)) as [r1|]; [|reflexivity].
        destruct cur; reflexivity.
  - (* the line that starts with [cur] is rejected *)
    simpl. destruct (Ascii.eqb c LF); [apply read_lines_rejected, Hf|].
    destruct (Ascii.eqb c CR).
    + destruct s' as [|c' s'']; [apply read_lines_rejected, Hf|].
      destruct (Ascii.eqb c' LF); apply read_lines_rejected, Hf.
    + rewrite (IH s') by lia. rewrite feed_app, Hf. reflexivity.
Qed.

Lemma read_under_limit_run s : read_under_limit lim s = run lim parse_reset false s.
Proof.
  unfold read_under_limit, splitlines.
  rewrite (read_lines_run_aux (length s)) by lia. reflexivity.
Qed.

(** *** What the reader does with what the writer wrote *)

Lemma special_false c :
  special c = false →
  Ascii.eqb c delimiter = false ∧ Ascii.eqb c quotechar = false
  ∧ Ascii.eqb c LF = false ∧ Ascii.eqb c CR = false.
Proof.
  unfold special, lineterminator. simpl.
  destruct (Ascii.eqb c delimiter), (Ascii.eqb c quotechar),
    (Ascii.eqb c CR), (Ascii.eqb c LF); simpl; intros; try discriminate; auto.
Qed.

(** A field that fits has room for each of its characters. *)
Lemma fits_room fld c l :
  field_fits lim (fld ++ c :: l) = true → at_limit lim (length fld) = false.
Proof.
  unfold field_fits, at_limit. destruct lim as [limit|]; [|reflexivity].
  rewrite length_app. cbn [length]. intros H.
  apply N.leb_le in H. apply N.leb_gt. lia.
Qed.

Lemma add_char_fits st fld flds c l :
  field_fits lim (fld ++ c :: l) = true →
  parse_add_char lim st c (mkReader START_RECORD fld flds)
  = Some (mkReader st (fld ++ [c]) flds).
Proof.
  intros H. unfold parse_add_char. cbn [field fields].
  rewrite (fits_room _ _ _ H). reflexivity.
Qed.

(** A character with no special meaning, at the start of a field or inside
    an unquoted one: added if there is room, refused if not. *)
Lemma unquoted_step st fld flds c :
  special c = false →
  st = START_RECORD ∨ st = START_FIELD ∨ st = IN_FIELD →
  parse_process_char lim (mkReader st fld flds) (Some c)
  = if at_limit lim (length fld) then None
    else Some (mkReader IN_FIELD (fld ++ [c]) flds).
Proof.
  intros Hc Hst. destruct (special_false c Hc) as (Hd & Hq & Hlf & Hcr).
  destruct Hst as [-> | [-> | ->]];
    cbn [parse_process_char start_field state]; unfold is_nl;
    rewrite ?Hlf, ?Hcr, ?Hq, ?Hd; reflexivity.
Qed.

Lemma run_in_field l : ∀ fld flds p s,
  existsb special l = false →
  field_fits lim (fld ++ l) = true →
  run lim (mkReader IN_FIELD fld flds) p (l ++ s)
  = run lim (mkReader IN_FIELD (fld ++ l) flds) (p || nonempty l) s.
Proof.
  induction l as [|c l IH]; intros fld flds p s Hl Hfit.
  - simpl. rewrite app_nil_r, orb_false_r. reflexivity.
  - simpl in Hl. apply orb_false_elim in Hl as [Hc Hl].
    destruct (special_false c Hc) as (Hd & Hq & Hlf & Hcr).
    cbn [app run]. rewrite unquoted_step by auto.
    rewrite (fits_room _ _ _ Hfit), Hlf, Hcr.
    rewrite IH; [|exact Hl|rewrite <- app_assoc; exact Hfit].
    rewrite <- app_assoc. cbn [app nonempty orb].
    rewrite orb_true_r. reflexivity.
Qed.

Lemma quoted_step fld flds c :
  Ascii.eqb c quotechar = false →
  at_limit lim (length fld) = false →
  parse_process_char lim (mkReader IN_QUOTED_FIELD fld flds) (Some c)
  = Some (mkReader IN_QUOTED_FIELD (fld ++ [c]) flds).
Proof.
  intros Hq Hroom. cbn [parse_process_char state]. rewrite Hq.
  unfold parse_add_char. cbn [field fields]. rewrite Hroom. reflexivity.
Qed.

(** Inside quotes the line structure does not matter: the content comes
    back as it was, up to the closing quote. *)
Lemma run_in_quoted content : ∀ fld flds p s,
  field_fits lim (fld ++ content) = true →
  run lim (mkReader IN_QUOTED_FIELD fld flds) p (copy_data content ++ quotechar :: s)
  = run lim (mkReader QUOTE_IN_QUOTED_FIELD (fld ++ content) flds) true s.
Proof.
  induction content as [|c content IH]; intros fld flds p s Hfit.
  - simpl. rewrite app_nil_r. reflexivity.
  - cbn [copy_data].
    pose proof (fits_room _ _ _ Hfit) as Hroom.
    replace (fld ++ c :: content) with ((fld ++ [c]) ++ content) in *
      by (rewrite <- app_assoc; reflexivity).
    destruct (Ascii.eqb c quotechar) eqn:Hq.
    + apply Ascii.eqb_eq in Hq. subst c.
      rewrite <- (IH (fld ++ [quotechar]) flds true s Hfit).
      cbn -[at_limit]. unfold parse_add_char. cbn [set_state field fields].
      rewrite Hroom. reflexivity.
    + destruct (Ascii.eqb c LF) eqn:Hlf.
      * rewrite <- (IH (fld ++ [c]) flds false s Hfit).
        cbn [app run]. rewrite (quoted_step _ _ _ Hq Hroom), Hlf. reflexivity.
      * destruct (Ascii.eqb c CR) eqn:Hcr.
        -- rewrite <- (IH (fld ++ [c]) flds false s Hfit).
           cbn [app run]. rewrite (quoted_step _ _ _ Hq Hroom), Hlf, Hcr.
           destruct content as [|c' content'].
           ++ reflexivity.
           ++ cbn [copy_data].
              destruct (Ascii.eqb c' quotechar) eqn:Hq'.
              ** reflexivity.
              ** cbn [app]. destruct (Ascii.eqb c' LF) eqn:Hlf'; [|reflexivity].
                 rewrite (quoted_step _ _ _ Hq' (fits_room _ _ _ Hfit)).
                 cbn [run]. rewrite (quoted_step _ _ _ Hq' (fits_room _ _ _ Hfit)), Hlf'.
                 reflexivity.
        -- rewrite <- (IH (fld ++ [c]) flds true s Hfit).
           cbn [app run]. rewrite (quoted_step _ _ _ Hq Hroom), Hlf, Hcr. reflexivity.
Qed.

Lemma run_delimiter r p s :
  closes_field r ∨ at_field_start r →
  run lim r p (delimiter :: s)
  = run lim (mkReader START_FIELD [] (fields r ++ [field r])) true s.
Proof.
  destruct r as [st fld flds]. unfold closes_field, at_field_start. cbn [state field].
  intros [[-> | [-> | ->]] | [[-> | ->] _]]; reflexivity.
Qed.

Lemma run_lineterminator r p s :
  closes_field r →
  run lim r p (CR :: LF :: s)
  = option_map (cons (fields r ++ [field r])) (run lim parse_reset false s).
Proof.
  destruct r as [st fld flds]. unfold closes_field. cbn [state].
  intros [-> | [-> | ->]]; reflexivity.
Qed.

Lemma run_field f q r p :
  at_field_start r →
  field_fits lim f = true →
  ∃ r' p',
    (∀ s, run lim r p (join_append f q ++ s) = run lim r' p' s)
    ∧ fields r' = fields r ∧ field r' = f
    ∧ (r' = r ∧ join_append f q = [] ∨ state r' = IN_FIELD
       ∨ state r' = QUOTE_IN_QUOTED_FIELD).
Proof.
  destruct r as [st fld flds]. unfold at_field_start. cbn [state field].
  intros [Hst ->] Hfit. unfold join_append.
  destruct (q || existsb special f) eqn:Hq.
  - exists (mkReader QUOTE_IN_QUOTED_FIELD f flds), true. split_and!; auto.
    intros s. rewrite <- app_comm_cons, <- app_assoc. cbn [app].
    change f with ([] ++ f) at 2.
    rewrite <- (run_in_quoted f [] flds true s Hfit).
    destruct Hst as [-> | ->]; reflexivity.
  - apply orb_false_elim in Hq as [_ Hf].
    destruct f as [|c f].
    + exists (mkReader st [] flds), p. split_and!; auto.
    + exists (mkReader IN_FIELD (c :: f) flds), true. split_and!; auto.
      intros s. simpl in Hf. apply orb_false_elim in Hf as [Hc Hf].
      destruct (special_false c Hc) as (Hd & Hqc & Hlf & Hcr).
      rewrite <- app_comm_cons.
      transitivity (run lim (mkReader IN_FIELD [c] flds) true (f ++ s)).
      * cbn [app run]. rewrite unquoted_step by tauto.
        rewrite (fits_room [] c f Hfit), Hlf, Hcr. reflexivity.
      * rewrite run_in_field by assumption. reflexivity.
Qed.

Lemma join_fields_S n m fs : join_fields (S n) fs = join_fields (S m) fs.
Proof.
  revert n m. induction fs as [|f fs IH]; intros n m; [reflexivity|].
  cbn [join_fields]. rewrite (IH (S n) (S m)). reflexivity.
Qed.

Lemma run_fields rest : ∀ f q n r p s,
  at_field_start r →
  (state r = START_RECORD → rest = [] → join_append f q ≠ []) →
  forallb (field_fits lim) (f :: rest) = true →
  run lim r p (join_append f q ++ join_fields (S n) rest ++ CR :: LF :: s)
  = option_map (cons (fields r ++ f :: rest)) (run lim parse_reset false s).
Proof.
  induction rest as [|g rest IH]; intros f q n r p s Hr Hne Hfit;
    cbn [forallb] in Hfit; apply andb_prop in Hfit as [Hfit Hrest].
  - destruct (run_field f q r p Hr Hfit) as (r' & p' & Hrun & Hfs & Hf & Hst).
    cbn [join_fields app]. rewrite Hrun.
    rewrite run_lineterminator.
    + rewrite Hfs, Hf. reflexivity.
    + destruct Hst as [[-> Hnil] | Hst]; [|right; exact Hst].
      destruct Hr as [[Hs | Hs] _]; [|left; exact Hs].
      exfalso. apply (Hne Hs eq_refl Hnil).
  - destruct (run_field f q r p Hr Hfit) as (r' & p' & Hrun & Hfs & Hf & Hst).
    cbn [join_fields]. rewrite Hrun. cbn [app].
    rewrite run_delimiter.
    + assert (Hnext : at_field_start (mkReader START_FIELD [] (fields r' ++ [field r'])))
        by (split; [right|]; reflexivity).
      rewrite <- app_assoc.
      rewrite (IH g false (S n) _ true s Hnext).
      * cbn [fields]. rewrite Hfs, Hf, <- app_assoc. reflexivity.
      * cbn [state]. discriminate.
      * exact Hrest.
    + destruct Hst as [[-> _] | Hst]; [right; exact Hr | left; right; exact Hst].
Qed.

Lemma run_writerow fs s :
  forallb (field_fits lim) fs = true →
  run lim parse_reset false (writerow fs ++ s)
  = option_map (cons fs) (run lim parse_reset false s).
Proof.
  intros Hfit.
  assert (Hreset : at_field_start parse_reset) by (split; [left|]; reflexivity).
  unfold writerow, lineterminator.
  destruct fs as [|f rest]; [reflexivity|].
  cbn [join_fields length Nat.ltb Nat.leb andb app].
  destruct (length (join_append f false ++ join_fields 1 rest) =? 0)%nat eqn:Hlen.
  - apply Nat.eqb_eq, length_zero_iff_nil, app_eq_nil in Hlen as [Hf Hrest].
    destruct rest as [|g rest]; [|discriminate Hrest].
    assert (f = []) as ->.
    { unfold join_append in Hf. destruct (false || existsb special f); [discriminate|exact Hf]. }
    rewrite <- app_assoc.
    change ([CR; LF] ++ s) with (join_fields 1 [] ++ CR :: LF :: s).
    rewrite (run_fields [] [] true 0 parse_reset false s Hreset); [reflexivity| |exact Hfit].
    intros _ _. discriminate.
  - rewrite <- !app_assoc.
    change ([CR; LF] ++ s) with (CR :: LF :: s).
    rewrite (run_fields rest f false 0 parse_reset false s Hreset); [reflexivity| |exact Hfit].
    intros _ -> Hf. rewrite Hf in Hlen. discriminate.
Qed.

(** The file the writer produces for [records], read back under the limit:
    every field that fits comes back as it was written. *)
Lemma read_under_limit_writerows records :
  forallb (forallb (field_fits lim)) records = true →
  read_under_limit lim (concat (map writerow records)) = Some records.
Proof.
  rewrite read_under_limit_run.
  induction records as [|fs records IH]; [reflexivity|].
  cbn [map concat forallb]. intros [Hfs Hrest]%andb_prop.
  rewrite run_writerow by exact Hfs. rewrite IH by exact Hrest. reflexivity.
Qed.

Lemma fits_next fld c :
  field_fits lim fld = true → at_limit lim (length fld) = false →
  field_fits lim (fld ++ [c]) = true.
Proof.
  unfold field_fits, at_limit. destruct lim as [limit|]; [|reflexivity].
  rewrite length_app. cbn [length]. intros _ H%N.leb_gt. apply N.leb_le. lia.
Qed.

(** A field with no special character is written as it is; once it has
    filled the limit, the next character is refused. *)
Lemma run_in_field_overflow l : ∀ st fld flds p s,
  st = START_RECORD ∨ st = START_FIELD ∨ st = IN_FIELD →
  existsb special l = false →
  field_fits lim fld = true →
  field_fits lim (fld ++ l) = false →
  run lim (mkReader st fld flds) p (l ++ s) = None.
Proof.
  induction l as [|c l IH]; intros st fld flds p s Hst Hl Hfld Hover.
  - rewrite app_nil_r in Hover. congruence.
  - simpl in Hl. apply orb_false_elim in Hl as [Hc Hl].
    destruct (special_false c Hc) as (Hd & Hq & Hlf & Hcr).
    cbn [app run]. rewrite unquoted_step by auto.
    destruct (at_limit lim (length fld)) eqn:Hroom; [reflexivity|].
    rewrite Hlf, Hcr. apply IH; auto using fits_next.
    rewrite <- app_assoc. exact Hover.
Qed.

Lemma join_append_plain f : existsb special f = false → join_append f false = f.
Proof. intros Hf. unfold join_append. rewrite Hf. reflexivity. Qed.

(** A record that starts with a field too long for the limit is refused,
    whatever follows. *)
Lemma run_writerow_overflow f rest s :
  existsb special f = false →
  field_fits lim [] = true →
  field_fits lim f = false →
  run lim parse_reset false (writerow (f :: rest) ++ s) = None.
Proof.
  intros Hf Hnil Hover.
  assert (Hw : ∃ tail, writerow (f :: rest) ++ s = f ++ tail).
  { destruct f as [|c f]; [congruence|].
    unfold writerow. cbn [join_fields]. rewrite (join_append_plain _ Hf).
    cbn [app length Nat.eqb]. rewrite andb_false_r.
    exists (join_fields 1 rest ++ lineterminator ++ s).
    cbn [app]. rewrite <- !app_assoc. reflexivity. }
  destruct Hw as [tail ->].
  apply run_in_field_overflow; auto.
Qed.
End Limit.

Lemma read_run s : read s = run None parse_reset false s.
Proof. apply read_under_limit_run. Qed.

Lemma fits_without_limit records :
  forallb (forallb (field_fits None)) records = true.
Proof.
  induction records as [|fs records IH]; [reflexivity|].
  cbn [forallb]. rewrite IH, andb_true_r.
  induction fs as [|f fs IHf]; [reflexivity | exact IHf].
Qed.

(** The file the writer produces for [records], read back. *)
Lemma read_writerows records :
  read (concat (map writerow records)) = Some records.
Proof. apply read_under_limit_writerows, fits_without_limit. Qed.

Lemma read_default_writerows records :
  forallb (forallb (field_fits (Some field_size_limit))) records = true →
  read_default (concat (map writerow records)) = Some records.
Proof. apply read_under_limit_writerows. Qed.
End CsvFacts.

(** ** Running the monad *)

Arguments String.append : simpl never.

Ltac unfold_py :=
  cbv [mbind mret M_bind M_ret bind ret raise lift call emit
       logging_error logging_info try_except try_except_IOError].

Lemma bind_ret {A B} (m : M A) (k : A → M B) w a w1 :
  m w = (Ret a, w1) → (m ≫= k) w = k a w1.
Proof. intros H. unfold mbind, M_bind, bind. rewrite H. reflexivity. Qed.

Lemma bind_raise {A B} (m : M A) (k : A → M B) w e w1 :
  m w = (Raise e, w1) → (m ≫= k) w = (Raise e, w1).
Proof. intros H. unfold mbind, M_bind, bind. rewrite H. reflexivity. Qed.

Lemma events_since_app w w' evs :
  trace w' = (trace w ++ evs)%list → events_since w w' = evs.
Proof. unfold events_since. intros ->. apply drop_app_length. Qed.

Ltac norm_events :=
  repeat match goal with
  | H : context [events_since ?w ?w'] |- _ =>
      erewrite (events_since_app w w') in H
        by (simpl; rewrite <- ?app_assoc; simpl; reflexivity)
  | |- context [events_since ?w ?w'] =>
      erewrite (events_since_app w w')
        by (simpl; rewrite <- ?app_assoc; simpl; reflexivity)
  end.

(** An event that is none of the listed ones. *)
Ltac not_listed :=
  let H := fresh in
  intros H; apply list_elem_of_In in H; simpl in H; destruct_or?; simplify_eq; done.

(** ** sftp_upload.py *)

Module SftpFacts.
Import SftpUpload.

Ltac env_call o :=
  lazymatch o with
  | secret_client _ => idtac
  | access_secret_version _ _ => idtac
  | sftp_transport _ _ _ => idtac
  | sftp_connect _ _ _ => idtac
  | sftp_from_transport _ => idtac
  | remote_chdir _ _ => idtac
  | remote_put _ _ _ => idtac
  end.

Ltac case_env :=
  match goal with
  | |- context [match ?o with Ret _ => _ | Raise _ => _ end] =>
      env_call o; destruct o as [?|?] eqn:?; simpl
  | |- context [match fs ?w !! ?p with _ => _ end] =>
      destruct (fs w !! p) as [[?|]|] eqn:?; simpl
  | |- context [if is_IOError ?e then _ else _] =>
      destruct (is_IOError e) eqn:?; simpl
  end.

Ltac unfold_upload :=
  unfold upload_to_sftp, get_secret_latest, get_secret, Transport, transport_connect,
    SFTPClient_from_transport, navigate, sftp_chdir, sftp_put, sftp_close,
    transport_close, set_world;
  unfold_py; simpl.

(** [upload_to_sftp] returns a boolean whatever happens, and leaves the
    local files alone. *)
Lemma upload_to_sftp_returns env l r p w :
  ∃ b w', upload_to_sftp env l r p w = (Ret b, w') ∧ fs w' = fs w.
Proof.
  unfold_upload.
  repeat case_env; eexists _, _; (split; reflexivity).
Qed.

(** C5. Whenever the directory change of a call to [upload_to_sftp] raises
    an [IOError] (the directory is missing or inaccessible), the call
    returns [False], [sftp.put] is not invoked, and the transport has been
    closed when the call returns. *)
Theorem chdir_failure_aborts env l r p w res w' d e :
  upload_to_sftp env l r p w = (res, w') →
  EvChdir d ∈ events_since w w' →
  remote_chdir env d = Raise e →
  is_IOError e = true →
  res = Ret false
  ∧ (∀ lp rp c, EvPut lp rp c ∉ events_since w w')
  ∧ (EvTransportClose ∈ events_since w w')
  ∧ transport_active w' = false.
Proof.
  unfold_upload.
  repeat case_env; intros Hrun Hin Hch Hio; simplify_eq; norm_events;
    apply list_elem_of_In in Hin; simpl in Hin; destruct_or?; simplify_eq;
    try done; try congruence.
  all: split_and!; [done | | | done].
  all: try (intros lp rp c; not_listed).
  all: apply list_elem_of_In; simpl; tauto.
Qed.

(** C10. When the transport has been opened and a later step raises
    (authentication, the opening of the session, the upload, or the
    directory change with an exception that is not an [IOError]),
    [upload_to_sftp] returns [False] and closes neither the SFTP session
    nor the transport: the connection stays open. *)
Theorem upload_failure_leaves_connection_open env l r p w host user pw dir :
  secrets_resolve env p host user pw dir →
  sftp_transport env host 22 = Ret tt →
  step_fails env (fs w !! l) r user pw dir →
  ∃ w', upload_to_sftp env l r p w = (Ret false, w')
        ∧ transport_active w' = true
        ∧ (EvSftpClose ∉ events_since w w')
        ∧ (EvTransportClose ∉ events_since w w').
Proof.
  intros (Hc & Hh & Hu & Hp & Hd) Ht Hfail.
  unfold_upload. rewrite Hc, Hh, Hu, Hp, Hd, Ht. simpl.
  destruct Hfail as [e He | e Hco He | e Hco Hse He Hio | c e Hco Hse Hch Hl He | Hco Hse Hch Hl].
  - rewrite He. simpl. eexists. split_and!; [reflexivity | reflexivity | |];
      norm_events; not_listed.
  - rewrite Hco, He. simpl. eexists. split_and!; [reflexivity | reflexivity | |];
      norm_events; not_listed.
  - rewrite Hco, Hse, He. simpl. rewrite Hio. simpl.
    eexists. split_and!; [reflexivity | reflexivity | |]; norm_events; not_listed.
  - rewrite Hco, Hse, Hch. simpl. rewrite Hl. simpl. rewrite He. simpl.
    eexists. split_and!; [reflexivity | reflexivity | |]; norm_events; not_listed.
  - rewrite Hco, Hse, Hch. simpl.
    destruct (fs w !! l) as [[c|]|]; simpl.
    + destruct (Hl c eq_refl).
    + eexists. split_and!; [reflexivity | reflexivity | |]; norm_events; not_listed.
    + eexists. split_and!; [reflexivity | reflexivity | |]; norm_events; not_listed.
Qed.

(** *** [process_csv_upload] *)

Lemma remove_if_exists_ret path w w' :
  remove_if_exists path w = (Ret tt, w') → fs w' !! path = None.
Proof.
  unfold remove_if_exists, os_path_exists, os_remove. unfold_py.
  destruct (fs w !! path) as [[c|]|] eqn:E; simpl; rewrite ?E;
    intros H; simplify_eq; simpl.
  - apply lookup_delete_eq.
  - exact E.
Qed.

Lemma remove_if_exists_not_dir path w :
  fs w !! path ≠ Some Dir → ∃ w', remove_if_exists path w = (Ret tt, w').
Proof.
  unfold remove_if_exists, os_path_exists, os_remove. unfold_py.
  destruct (fs w !! path) as [[c|]|] eqn:E; simpl; rewrite ?E; intros H; eauto. done.
Qed.

Lemma remove_if_exists_dir path w :
  fs w !! path = Some Dir →
  remove_if_exists path w
  = (Raise (Exn IsADirectoryError ("[Errno 21] Is a directory: '" ++ path ++ "'")), w).
Proof.
  unfold remove_if_exists, os_path_exists, os_remove. unfold_py.
  intros E. rewrite E. simpl. rewrite E. reflexivity.
Qed.

(** Whatever [save_payload] does, it does not make a directory. *)
Lemma save_payload_not_dir env data path w o w1 :
  save_payload env data path w = (o, w1) →
  fs w !! path ≠ Some Dir → fs w1 !! path ≠ Some Dir.
Proof.
  unfold save_payload. destruct data as [b | [b | e]];
    unfold open_wb, write; unfold_py;
    (destruct (fs w !! path) as [[c|]|] eqn:E; [| done |]);
    destruct (os_open_error env path);
    simpl; rewrite ?lookup_insert_eq; simpl;
    intros H _; simplify_eq; simpl; rewrite ?lookup_insert_eq, ?E; done.
Qed.

Lemma process_csv_upload_body env data filename project_id w :
  process_csv_upload env data filename project_id w
  = let temp_path := "/tmp/" ++ filename in
    match save_payload env data temp_path w with
    | (Ret _, w1) =>
        match upload_to_sftp env temp_path filename project_id w1 with
        | (Ret success, w2) =>
            match remove_if_exists temp_path w2 with
            | (Ret _, w3) =>
                (Ret (if success
                      then mkResult "success" ("File " ++ filename ++ " uploaded successfully")
                      else mkResult "error" "Failed to upload file"), w3)
            | (Raise e, w3) =>
                (logging_error ("Error processing upload: " ++ str e);;
                 remove_if_exists temp_path;;
                 mret (mkResult "error" (str e))) w3
            end
        | (Raise e, w2) =>
            (logging_error ("Error processing upload: " ++ str e);;
             remove_if_exists temp_path;;
             mret (mkResult "error" (str e))) w2
        end
    | (Raise e, w1) =>
        (logging_error ("Error processing upload: " ++ str e);;
         remove_if_exists temp_path;;
         mret (mkResult "error" (str e))) w1
    end.
Proof.
  unfold process_csv_upload, try_except. cbv [mbind M_bind bind mret M_ret ret].
  cbv zeta.
  destruct (save_payload env data ("/tmp/" ++ filename) w) as [[[]|e] w1]; [|reflexivity].
  destruct (upload_to_sftp env ("/tmp/" ++ filename) filename project_id w1)
    as [[success|e] w2]; [|reflexivity].
  destruct (remove_if_exists ("/tmp/" ++ filename) w2) as [[[]|e] w3]; [|reflexivity].
  destruct success; reflexivity.
Qed.

Lemma handler_ret path (res : Result) msg w r w' :
  (logging_error msg;; remove_if_exists path;; mret res) w = (Ret r, w') →
  fs w' !! path = None.
Proof.
  unfold logging_error, emit. cbv [mbind M_bind bind mret M_ret ret].
  destruct (remove_if_exists path (with_event (EvLog ERROR msg) w))
    as [[[]|e] w1] eqn:Hr; intros H; simplify_eq.
  eapply remove_if_exists_ret, Hr.
Qed.

(** C6. Whatever the payload (bytes or stream) and the file name, when
    [process_csv_upload] returns, with status success or error, nothing
    exists at [/tmp/<filename>]. *)
Theorem process_csv_upload_removes_temp_file env data filename project_id w r w' :
  process_csv_upload env data filename project_id w = (Ret r, w') →
  fs w' !! ("/tmp/" ++ filename) = None.
Proof.
  rewrite process_csv_upload_body. cbv zeta.
  destruct (save_payload env data ("/tmp/" ++ filename) w) as [[[]|e] w1];
    [|apply handler_ret].
  destruct (upload_to_sftp env ("/tmp/" ++ filename) filename project_id w1)
    as [[success|e] w2]; [|apply handler_ret].
  destruct (remove_if_exists ("/tmp/" ++ filename) w2) as [[[]|e] w3] eqn:Hr;
    [|apply handler_ret].
  intros H. simplify_eq. eapply remove_if_exists_ret, Hr.
Qed.

(** When nothing exists at [/tmp/<filename>] before the call,
    [process_csv_upload] returns a result: what it removes is then the file
    it created. *)
Lemma process_csv_upload_returns env data filename project_id w :
  fs w !! ("/tmp/" ++ filename) = None →
  ∃ r w', process_csv_upload env data filename project_id w = (Ret r, w')
          ∧ (status r = "success" ∨ status r = "error").
Proof.
  intros Hfree.
  assert (Hnd : fs w !! ("/tmp/" ++ filename) ≠ Some Dir) by (rewrite Hfree; discriminate).
  rewrite process_csv_upload_body. cbv zeta.
  assert (Hhandler : ∀ msg res w1, status res = "error" →
            fs w1 !! ("/tmp/" ++ filename) ≠ Some Dir →
            ∃ r w', (logging_error msg;; remove_if_exists ("/tmp/" ++ filename);; mret res) w1
                    = (Ret r, w') ∧ (status r = "success" ∨ status r = "error")).
  { intros msg res w1 Hres Hw1. unfold logging_error, emit.
    cbv [mbind M_bind bind mret M_ret ret].
    destruct (remove_if_exists_not_dir ("/tmp/" ++ filename)
                (with_event (EvLog ERROR msg) w1) Hw1) as [w2 ->].
    eauto. }
  destruct (save_payload env data ("/tmp/" ++ filename) w) as [[[]|e] w1] eqn:Hs.
  - pose proof (save_payload_not_dir _ _ _ _ _ _ Hs Hnd) as Hw1.
    destruct (upload_to_sftp_returns env ("/tmp/" ++ filename) filename project_id w1)
      as (success & w2 & -> & Hfs).
    destruct (remove_if_exists_not_dir ("/tmp/" ++ filename) w2) as [w3 ->].
    { rewrite Hfs. exact Hw1. }
    destruct success; eauto.
  - apply Hhandler; [reflexivity|].
    eapply save_payload_not_dir; eauto.
Qed.

(** C7. The call [process_csv_upload(b"x", "", "ramp")]: the path is the
    directory [/tmp/], creating the file raises, and the removal in the
    handler raises again, past the function. *)
Theorem process_csv_upload_raises_on_directory :
  (process_csv_upload all_well (Bytes ["x"%byte]) "" "ramp" fresh_world).1
  = Raise (Exn IsADirectoryError "[Errno 21] Is a directory: '/tmp/'").
Proof. vm_compute. reflexivity. Qed.

(** The same for every environment, payload and project. *)
Lemma process_csv_upload_raises env data filename project_id w :
  fs w !! ("/tmp/" ++ filename) = Some Dir →
  ∃ e w', process_csv_upload env data filename project_id w = (Raise e, w').
Proof.
  intros Hd. rewrite process_csv_upload_body. cbv zeta.
  assert (Hs : ∃ e, save_payload env data ("/tmp/" ++ filename) w = (Raise e, w)).
  { unfold save_payload. destruct data; unfold open_wb; unfold_py; rewrite Hd; eauto. }
  destruct Hs as [e ->].
  unfold logging_error, emit. cbv [mbind M_bind bind mret M_ret ret].
  rewrite remove_if_exists_dir by exact Hd. eauto.
Qed.

(** C9. The two branches of the payload ingestion agree: with the bytes
    [b], and with a stream whose [read()] gives [b], the same content is
    written to the temporary file (which then holds exactly [b]) and
    [process_csv_upload] ends in the same result and the same world. *)
Theorem payload_branches_agree env b filename project_id w :
  save_payload env (Bytes b) ("/tmp/" ++ filename) w
  = save_payload env (Stream (Ret b)) ("/tmp/" ++ filename) w
  ∧ (∀ w1, save_payload env (Bytes b) ("/tmp/" ++ filename) w = (Ret tt, w1) →
           fs w1 !! ("/tmp/" ++ filename) = Some (File b))
  ∧ process_csv_upload env (Bytes b) filename project_id w
    = process_csv_upload env (Stream (Ret b)) filename project_id w.
Proof.
  assert (Hsave : ∀ path, save_payload env (Bytes b) path
                          = save_payload env (Stream (Ret b)) path).
  { reflexivity. }
  split_and!.
  - rewrite Hsave. reflexivity.
  - intros w1. unfold save_payload, open_wb, write. unfold_py.
    destruct (fs w !! ("/tmp/" ++ filename)) as [[c|]|] eqn:E;
      destruct (os_open_error env ("/tmp/" ++ filename)); simpl;
      rewrite ?lookup_insert_eq; simpl; intros H; simplify_eq; simpl;
      apply lookup_insert_eq.
  - rewrite !process_csv_upload_body. cbv zeta. rewrite Hsave. reflexivity.
Qed.
End SftpFacts.

(** ** main.py *)

Module MainFacts.
Import Main.

Lemma world_eta w : mkWorld (fs w) (trace w) (transport_active w) (sftp_active w) = w.
Proof. destruct w; reflexivity. Qed.

Lemma decode_encode t : decode (encode t) = t.
Proof.
  unfold decode, encode. rewrite map_map.
  induction t as [|c t IH]; simpl; [reflexivity|].
  rewrite ascii_of_byte_of_ascii, IH. reflexivity.
Qed.

(** The name [NamedTemporaryFile] returns was free, and is an empty file
    afterwards. *)
Lemma mkstemp_inner_ret env names suffix w temp w1 :
  mkstemp_inner env names suffix w = (Ret temp, w1) →
  fs w !! temp = None ∧ w1 = with_fs (<[temp := File []]>) w.
Proof.
  induction names as [|name names IH]; simpl; [discriminate|].
  destruct (fs w !! (tempdir env ++ "/" ++ "tmp" ++ name ++ suffix)) eqn:E; [exact IH|].
  destruct (os_open_error env _); intros H; simplify_eq. auto.
Qed.

Lemma row_values_ok row columns w :
  Forall (fun column => is_Some (row !! column)) columns →
  row_values row columns w
  = (Ret (map (fun column => default VNone (row !! column)) columns), w).
Proof.
  induction 1 as [|column columns [v Hv] _ IH]; [reflexivity|].
  cbn [row_values]. unfold row_getitem. rewrite Hv.
  cbv [mbind M_bind bind mret M_ret ret] in *. rewrite IH. simpl. rewrite Hv. reflexivity.
Qed.

Lemma write_rows_ok temp columns rows : ∀ row_count w c,
  fs w !! temp = Some (File c) →
  Forall (fun row => Forall (fun column => is_Some (row !! column)) columns) rows →
  write_rows temp columns rows row_count w
  = (Ret (row_count + length rows)%nat,
     with_fs (<[temp := File (c ++ encode (concat (map Csv.writerow (records_of columns rows))))]>) w).
Proof.
  induction rows as [|row rows IH]; intros row_count w c Hc Hrows.
  - simpl. unfold mret, M_ret, ret. f_equal; [f_equal; lia|].
    unfold with_fs, encode. simpl. rewrite app_nil_r, insert_id by exact Hc.
    symmetry. apply world_eta.
  - apply Forall_cons in Hrows as [Hrow Hrows].
    cbn [write_rows]. cbv [mbind M_bind bind].
    rewrite row_values_ok by exact Hrow.
    unfold csv_writerow, write. rewrite Hc.
    rewrite (IH _ _ (c ++ encode (Csv.writerow (map field_text
               (map (fun column => default VNone (row !! column)) columns))))%list)
      by (first [exact Hrows | apply lookup_insert_eq]).
    f_equal; [f_equal; simpl; lia|].
    unfold with_fs. simpl. rewrite insert_insert_eq.
    do 3 f_equal. rewrite <- app_assoc. f_equal.
    unfold encode. rewrite <- map_app. f_equal. f_equal.
    unfold cell. rewrite map_map. reflexivity.
Qed.

(** While the loop runs, the file stays a file, however the loop ends. *)
Lemma write_rows_file temp columns rows : ∀ row_count w c o w',
  fs w !! temp = Some (File c) →
  write_rows temp columns rows row_count w = (o, w') →
  ∃ c', fs w' !! temp = Some (File c').
Proof.
  induction rows as [|row rows IH]; intros row_count w c o w' Hc.
  - simpl. intros H. inversion H. subst. eauto.
  - cbn [write_rows]. cbv [mbind M_bind bind].
    destruct (row_values row columns w) as [[values|e] w1] eqn:Hv.
    + assert (w1 = w) as ->.
      { clear -Hv. revert values Hv. induction columns as [|column columns IHc]; simpl.
        - intros values H. inversion H. reflexivity.
        - intros values. unfold row_getitem. cbv [mbind M_bind bind mret M_ret ret raise].
          destruct (row !! column); [|discriminate].
          destruct (row_values row columns w) as [[vs|e] w2] eqn:E; [|discriminate].
          intros H. inversion H. subst. eapply IHc. reflexivity. }
      unfold csv_writerow, write. rewrite Hc.
      apply IH with (c := (c ++ encode (Csv.writerow (map field_text values)))%list).
      apply lookup_insert_eq.
    + assert (w1 = w) as ->.
      { clear -Hv. revert Hv. induction columns as [|column columns IHc]; simpl.
        - discriminate.
        - unfold row_getitem. cbv [mbind M_bind bind mret M_ret ret raise].
          destruct (row !! column); [|intros H; inversion H; reflexivity].
          destruct (row_values row columns w) as [[vs|e'] w2] eqn:E; [discriminate|].
          intros H. inversion H. subst. apply IHc. reflexivity. }
      intros H. inversion H. subst. eauto.
Qed.

(** What [write_csv] leaves behind when the result set is well formed. *)
Lemma write_csv_ok env results w temp w1 :
  NamedTemporaryFile env ".csv" w = (Ret temp, w1) →
  rs_error results = None →
  rows_match_schema results →
  fs w !! temp = None
  ∧ write_csv env results w
    = (Ret (temp, length (rs_rows results)),
       mkWorld (<[temp := File (encode (export_text results))]> (fs w))
               (trace w ++ [EvFetch]) (transport_active w) (sftp_active w)).
Proof.
  intros Htemp Herr Hrows.
  apply mkstemp_inner_ret in Htemp as Hw1. destruct Hw1 as [Hfree ->].
  split; [exact Hfree|].
  unfold write_csv. erewrite bind_ret by exact Htemp.
  unfold csv_writerow at 1. unfold write at 1.
  cbv [mbind M_bind bind emit]. simpl fs. rewrite lookup_insert_eq.
  rewrite (write_rows_ok _ _ _ _ _ ([] ++ encode (Csv.writerow
             (map list_ascii_of_string (rs_schema results))))%list)
    by (first [exact Hrows | apply lookup_insert_eq]).
  rewrite Herr. unfold mret, M_ret, ret. f_equal.
  unfold with_fs, with_event. simpl. rewrite !insert_insert_eq.
  f_equal. do 2 f_equal. unfold export_text, encode. cbn [map concat].
  rewrite map_app. reflexivity.
Qed.

Lemma relay_stage_ok env temp row_count w content resp :
  fs w !! temp = Some (File content) →
  requests_post env CLOUD_RUN_URL (basename temp) content "text/csv" = Ret resp →
  relay_stage env temp row_count w
  = (Ret (if (status_code resp =? 200)%Z
          then ("Successfully exported " ++ pretty row_count
                ++ " rows and uploaded to RAMP Data Upload", 200%Z)
          else ("Error uploading to Cloud Run: " ++ text resp, 500%Z)),
     mkWorld (delete temp (fs w))
             (trace w ++ [EvPost CLOUD_RUN_URL (basename temp) content "text/csv"])
             (transport_active w) (sftp_active w)).
Proof.
  intros Hfile Hpost.
  unfold relay_stage, read_rb, os_unlink, os_remove. unfold_py.
  rewrite Hfile, Hpost. simpl. rewrite Hfile.
  destruct (status_code resp =? 200)%Z; reflexivity.
Qed.

(** When [write_csv] returns, the path it returns is a file. *)
Lemma write_csv_file env results w temp row_count w1 :
  write_csv env results w = (Ret (temp, row_count), w1) →
  ∃ content, fs w1 !! temp = Some (File content).
Proof.
  unfold write_csv. cbv [mbind M_bind bind].
  destruct (NamedTemporaryFile env ".csv" w) as [[temp'|e] w0] eqn:Htemp; [|discriminate].
  apply mkstemp_inner_ret in Htemp as [_ ->].
  unfold csv_writerow at 1. unfold write at 1. simpl fs. rewrite lookup_insert_eq.
  unfold emit.
  match goal with
  | |- context [write_rows ?t ?cs ?rs ?n ?w0] =>
      destruct (write_rows t cs rs n w0) as [[n'|e] w2] eqn:Hrows
  end; [|discriminate].
  eapply write_rows_file in Hrows as [c' Hc']; [|apply lookup_insert_eq].
  destruct (rs_error results); [discriminate|].
  unfold mret, M_ret, ret. intros H. simplify_eq. eauto.
Qed.

Lemma export_stage_file env w temp row_count w1 :
  export_stage env w = (Ret (temp, row_count), w1) →
  ∃ content, fs w1 !! temp = Some (File content).
Proof.
  unfold export_stage. cbv [mbind M_bind bind].
  destruct (delegated_credentials env w) as [[credentials|e] w0]; [|discriminate].
  destruct (run_query env credentials w0) as [[results|e] w2]; [|discriminate].
  apply write_csv_file.
Qed.

(** C8. When the export has produced its file and the relay POST
    completes, [export_and_upload] returns the success message with the row
    count and status 200 if the response status is 200, and otherwise the
    failure message with the response body and status 500; in both cases
    the export file has been removed, and nothing else was called after the
    POST. *)
Theorem relay_outcome env request w temp_path row_count w1 resp :
  export_stage env w = (Ret (temp_path, row_count), w1) →
  (∀ content, fs w1 !! temp_path = Some (File content) →
     requests_post env CLOUD_RUN_URL (basename temp_path) content "text/csv" = Ret resp) →
  ∃ w' content,
    export_and_upload env request w
    = (Ret (if (status_code resp =? 200)%Z
            then ("Successfully exported " ++ pretty row_count
                  ++ " rows and uploaded to RAMP Data Upload", 200%Z)
            else ("Error uploading to Cloud Run: " ++ text resp, 500%Z)), w')
    ∧ fs w1 !! temp_path = Some (File content)
    ∧ fs w' = delete temp_path (fs w1)
    ∧ fs w' !! temp_path = None
    ∧ trace w' = (trace w1 ++ [EvPost CLOUD_RUN_URL (basename temp_path) content "text/csv"])%list.
Proof.
  intros Hexport Hpost.
  destruct (export_stage_file _ _ _ _ _ Hexport) as [content Hfile].
  specialize (Hpost content Hfile).
  eexists _, content.
  unfold export_and_upload, try_except.
  erewrite bind_ret by exact Hexport. cbv beta iota.
  rewrite (relay_stage_ok _ _ _ _ _ _ Hfile Hpost).
  split_and!; [reflexivity | exact Hfile | reflexivity | apply lookup_delete_eq | reflexivity].
Qed.

(** C4. With [SERVICE_ACCOUNT_KEY] unset or empty, [export_and_upload]
    answers 500 with the message of the configuration error, and the world
    is as before: no query, no POST, no call at all, no file. *)
Theorem missing_key_fails_before_any_call env request w :
  os_environ env "SERVICE_ACCOUNT_KEY" = None
  ∨ os_environ env "SERVICE_ACCOUNT_KEY" = Some "" →
  export_and_upload env request w
  = (Ret ("Error: SERVICE_ACCOUNT_KEY environment variable is not set" ++ NL ++ NL
          ++ "Details: "
          ++ format_exc env (Exn ValueError "SERVICE_ACCOUNT_KEY environment variable is not set"),
          500%Z), w).
Proof.
  intros Hkey.
  unfold export_and_upload, try_except, export_stage, delegated_credentials.
  cbv [mbind M_bind bind raise mret M_ret ret].
  destruct Hkey as [-> | ->]; reflexivity.
Qed.

Lemma header_record_length results :
  length (header_record results) = length (rs_schema results).
Proof. apply length_map. Qed.

Lemma data_records_length results :
  length (data_records results) = length (rs_rows results).
Proof. apply length_map. Qed.

Lemma data_records_width results :
  Forall (fun record => length record = length (rs_schema results)) (data_records results).
Proof.
  unfold data_records, records_of. apply Forall_map, Forall_forall.
  intros row _. apply length_map.
Qed.

(** The export text read back: the header record, then the data records. *)
Lemma read_export_text results :
  Csv.read (decode (encode (export_text results)))
  = Some (header_record results :: data_records results).
Proof. rewrite decode_encode. apply CsvFacts.read_writerows. Qed.

Lemma row_values_ret row columns w values w' :
  row_values row columns w = (Ret values, w') →
  Forall (fun column => is_Some (row !! column)) columns.
Proof.
  revert values. induction columns as [|column columns IH]; intros values; [constructor|].
  cbn [row_values]. unfold row_getitem. cbv [mbind M_bind bind mret M_ret ret raise].
  destruct (row !! column) as [v|] eqn:Hv; [|discriminate].
  destruct (row_values row columns w) as [[vs|e] w1]; [|discriminate].
  intros H. injection H as _ ->. constructor; eauto.
Qed.

Lemma write_rows_ret temp columns rows : ∀ row_count w n w',
  write_rows temp columns rows row_count w = (Ret n, w') →
  Forall (fun row => Forall (fun column => is_Some (row !! column)) columns) rows.
Proof.
  induction rows as [|row rows IH]; intros row_count w n w'; [constructor|].
  cbn [write_rows]. cbv [mbind M_bind bind].
  destruct (row_values row columns w) as [[values|e] w1] eqn:Hv; [|discriminate].
  destruct (csv_writerow temp (map field_text values) w1) as [[[]|e] w2]; [|discriminate].
  intros Hrest. constructor; [eapply row_values_ret, Hv | eapply IH, Hrest].
Qed.

(** When [write_csv] returns, the temporary file could be created, the
    iteration did not raise and every row had every column. *)
Lemma write_csv_ret env results w temp row_count w2 :
  write_csv env results w = (Ret (temp, row_count), w2) →
  (∃ w1, NamedTemporaryFile env ".csv" w = (Ret temp, w1))
  ∧ rs_error results = None
  ∧ rows_match_schema results.
Proof.
  unfold write_csv. cbv [mbind M_bind bind].
  destruct (NamedTemporaryFile env ".csv" w) as [[temp'|e] w0]; [|discriminate].
  destruct (csv_writerow temp' (map list_ascii_of_string (rs_schema results)) w0)
    as [[[]|e] w1]; [|discriminate].
  unfold emit.
  match goal with
  | |- context [write_rows ?t ?cs ?rs ?n ?w0] =>
      destruct (write_rows t cs rs n w0) as [[n'|e] w3] eqn:Hrows
  end; [|discriminate].
  destruct (rs_error results); [discriminate|].
  unfold mret, M_ret, ret. intros H. simplify_eq.
  split_and!; [eauto | reflexivity | eapply write_rows_ret, Hrows].
Qed.

(** The export text read back by the standard reader, when every field is
    within its limit. *)
Lemma read_default_export_text results :
  fields_within_limit results = true →
  Csv.read_default (decode (encode (export_text results)))
  = Some (header_record results :: data_records results).
Proof. intros Hfit. rewrite decode_encode. apply CsvFacts.read_default_writerows, Hfit. Qed.

Lemma one_field_match_schema v : rows_match_schema (one_field v).
Proof.
  repeat constructor. cbn [one_field rs_schema rs_rows].
  rewrite lookup_singleton_eq. eauto.
Qed.

Lemma export_text_one_field v :
  export_text (one_field v)
  = (Csv.writerow [list_ascii_of_string "note"] ++ Csv.writerow [field_text v] ++ [])%list.
Proof.
  unfold export_text, header_record, data_records, records_of, cell.
  cbn [one_field rs_schema rs_rows map concat].
  rewrite lookup_singleton_eq. reflexivity.
Qed.

(** A row whose one field is a string without special characters and too
    long for the standard reader: the export is written, and the reader
    raises on it. *)
Lemma long_field_rejected env w temp w1 (f : Csv.text) :
  NamedTemporaryFile env ".csv" w = (Ret temp, w1) →
  existsb Csv.special f = false →
  Csv.field_fits (Some Csv.field_size_limit) f = false →
  ∃ w2 content,
    write_csv env (one_field (VStr (string_of_list_ascii f))) w = (Ret (temp, 1%nat), w2)
    ∧ fs w2 !! temp = Some (File content)
    ∧ Csv.read_default (decode content) = None.
Proof.
  intros Htemp Hplain Hlong.
  destruct (write_csv_ok env (one_field (VStr (string_of_list_ascii f))) w temp w1 Htemp
              eq_refl (one_field_match_schema _)) as [_ Hcsv].
  eexists _, _. split_and!; [exact Hcsv | apply lookup_insert_eq |].
  rewrite decode_encode, export_text_one_field.
  cbn [field_text]. rewrite list_ascii_of_string_of_list_ascii.
  unfold Csv.read_default. rewrite CsvFacts.read_under_limit_run.
  rewrite CsvFacts.run_writerow by reflexivity.
  rewrite CsvFacts.run_writerow_overflow; auto.
Qed.

Lemma long_text_plain : existsb Csv.special long_text = false.
Proof.
  unfold long_text. induction (N.to_nat (Csv.field_size_limit + 1)) as [|n IH];
    [reflexivity | exact IH].
Qed.

Lemma long_text_too_long : Csv.field_fits (Some Csv.field_size_limit) long_text = false.
Proof.
  unfold Csv.field_fits, long_text. rewrite repeat_length, N2Nat.id. reflexivity.
Qed.

Lemma read_default_one_field (f : Csv.text) :
  Csv.field_fits (Some Csv.field_size_limit) f = true →
  Csv.read_default (Csv.writerow [f]) = Some [[f]].
Proof.
  intros Hfit.
  pose proof (CsvFacts.read_default_writerows [[f]]) as H.
  cbn [map concat forallb] in H. rewrite app_nil_r, Hfit in H. apply H. reflexivity.
Qed.

(** The bound is the reader's: a field of exactly [Csv.field_size_limit]
    characters is read back. *)
Lemma full_field_is_read_back :
  Csv.read_default (Csv.writerow [repeat "a"%char (N.to_nat Csv.field_size_limit)])
  = Some [[repeat "a"%char (N.to_nat Csv.field_size_limit)]].
Proof.
  apply read_default_one_field.
  unfold Csv.field_fits. rewrite repeat_length, N2Nat.id. reflexivity.
Qed.

(** C3. For every result set whose column names and field texts have at
    most 131072 characters, whatever characters they contain (delimiters,
    quotes, line breaks): whenever [write_csv] produces the export file,
    the standard reader, with its field size limit, parses it back into the
    column names and, row by row and column by column, the text the writer
    gave every field value: a string as it is, NULL as the empty string,
    any other value as its [str()].  And the file is produced when the
    temporary file can be created, the iteration does not raise and the
    rows have the columns of the schema. *)
Theorem export_file_round_trip_within_limit env results w :
  fields_within_limit results = true →
  (∀ temp row_count w2,
     write_csv env results w = (Ret (temp, row_count), w2) →
     ∃ content,
       fs w2 !! temp = Some (File content)
       ∧ Csv.read_default (decode content)
         = Some (map list_ascii_of_string (rs_schema results)
                 :: map (fun row => map (fun column => field_text (default VNone (row !! column)))
                                        (rs_schema results))
                        (rs_rows results)))
  ∧ (∀ temp w1,
       NamedTemporaryFile env ".csv" w = (Ret temp, w1) →
       rs_error results = None →
       rows_match_schema results →
       ∃ w2, write_csv env results w = (Ret (temp, length (rs_rows results)), w2)).
Proof.
  intros Hfit. split.
  - intros temp row_count w2 Hrun.
    destruct (write_csv_ret _ _ _ _ _ _ Hrun) as ([w1 Htemp] & Herr & Hrows).
    destruct (write_csv_ok _ _ _ _ _ Htemp Herr Hrows) as [_ Hcsv].
    rewrite Hcsv in Hrun. simplify_eq.
    eexists. split; [apply lookup_insert_eq | apply read_default_export_text, Hfit].
  - intros temp w1 Htemp Herr Hrows.
    destruct (write_csv_ok _ _ _ _ _ Htemp Herr Hrows) as [_ Hcsv]. eauto.
Qed.

(** Without the bound the round trip fails.  A row whose one field is a
    string of 131073 letters: the export file is written, and the standard
    reader raises on it, field larger than field limit.  And a NULL does not
    come back: its export is the export of the empty string, byte for byte. *)
Lemma long_field_is_not_read_back :
  (∃ w2 content,
     write_csv all_well (one_field (VStr (string_of_list_ascii long_text))) fresh_world
     = (Ret ("/tmp/tmpk3x9_q2a.csv", 1%nat), w2)
     ∧ fs w2 !! "/tmp/tmpk3x9_q2a.csv" = Some (File content)
     ∧ Csv.read_default (decode content) = None)
  ∧ VNone ≠ VStr ""
  ∧ write_csv all_well (one_field VNone) fresh_world
    = write_csv all_well (one_field (VStr "")) fresh_world.
Proof.
  split_and!.
  - apply (long_field_rejected all_well fresh_world "/tmp/tmpk3x9_q2a.csv"
             (NamedTemporaryFile all_well ".csv" fresh_world).2).
    + reflexivity.
    + exact long_text_plain.
    + exact long_text_too_long.
  - discriminate.
  - reflexivity.
Qed.

(** C2. For a result set of N rows over C schema columns, the file
    [export_and_upload] writes (and relays) holds one header record and
    then N data records, in the order of the result, each of C fields in
    the order of the schema; and when the relay answers 200 the success
    message carries N. *)
Theorem export_file_has_header_and_rows env request w credentials w0 results w1 temp w2 resp :
  delegated_credentials env w = (Ret credentials, w0) →
  run_query env credentials w0 = (Ret results, w1) →
  NamedTemporaryFile env ".csv" w1 = (Ret temp, w2) →
  rs_error results = None →
  rows_match_schema results →
  requests_post env CLOUD_RUN_URL (basename temp) (encode (export_text results)) "text/csv"
    = Ret resp →
  status_code resp = 200%Z →
  let N := length (rs_rows results) in
  let C := length (rs_schema results) in
  ∃ w3 content records w',
    export_stage env w = (Ret (temp, N), w3)
    ∧ fs w3 !! temp = Some (File content)
    ∧ Csv.read (decode content) = Some (header_record results :: records)
    ∧ length (header_record results) = C
    ∧ length records = N
    ∧ Forall (fun record => length record = C) records
    ∧ (∀ i row, rs_rows results !! i = Some row →
         records !! i = Some (map (cell row) (rs_schema results)))
    ∧ export_and_upload env request w
      = (Ret ("Successfully exported " ++ pretty N
              ++ " rows and uploaded to RAMP Data Upload", 200%Z), w')
    ∧ (EvPost CLOUD_RUN_URL (basename temp) content "text/csv" ∈ events_since w3 w').
Proof.
  intros Hcred Hquery Htemp Herr Hrows Hpost Hstatus N C.
  destruct (write_csv_ok _ _ _ _ _ Htemp Herr Hrows) as [Hfree Hcsv].
  assert (Hexport : export_stage env w
                    = (Ret (temp, N),
                       mkWorld (<[temp := File (encode (export_text results))]> (fs w1))
                               (trace w1 ++ [EvFetch]) (transport_active w1) (sftp_active w1))).
  { unfold export_stage. erewrite bind_ret by exact Hcred.
    erewrite bind_ret by exact Hquery. exact Hcsv. }
  eexists _, (encode (export_text results)), (data_records results), _.
  split_and!.
  - exact Hexport.
  - apply lookup_insert_eq.
  - apply read_export_text.
  - apply header_record_length.
  - apply data_records_length.
  - apply data_records_width.
  - intros i row Hi. unfold data_records, records_of.
    rewrite list_lookup_fmap_Some || (apply list_lookup_fmap_Some; eauto).
    eauto.
  - unfold export_and_upload, try_except.
    erewrite bind_ret by exact Hexport. cbv beta iota.
    erewrite relay_stage_ok; [| apply lookup_insert_eq | exact Hpost].
    rewrite Hstatus. reflexivity.
  - norm_events. apply list_elem_of_In. simpl. tauto.
Qed.

(** C1. The relay is unreachable: [requests.post] raises.  The invocation
    answers 500, and the export file it created is still there. *)
Theorem export_file_left_behind :
  let env := scenario (Ret tt) (Ret tt) (Raise (Exn RequestException "Connection refused")) in
  let run := export_and_upload env "" fresh_world in
  fs fresh_world !! "/tmp/tmpk3x9_q2a.csv" = None
  ∧ run.1 = Ret ("Error: Connection refused" ++ NL ++ NL ++ "Details: "
                 ++ format_exc env (Exn RequestException "Connection refused"), 500%Z)
  ∧ fs run.2 !! "/tmp/tmpk3x9_q2a.csv" = Some (File (encode (export_text three_rows))).
Proof. vm_compute. auto. Qed.
End MainFacts.

(** ** The statements at work on the scenarios *)

Module Witnesses.
Import SftpUpload Main SftpFacts MainFacts.

Lemma chdir_failure_aborts_witness :
  let env := scenario (Raise (Exn FileNotFoundError "[Errno 2] No such file"))
                      (Ret tt) (Ret (mkResponse 200 "OK")) in
  let run := upload_to_sftp env "/tmp/report.csv" "report.csv" "ramp" fresh_world in
  run.1 = Ret false
  ∧ (∀ lp rp c, EvPut lp rp c ∉ events_since fresh_world run.2)
  ∧ (EvTransportClose ∈ events_since fresh_world run.2)
  ∧ transport_active run.2 = false.
Proof.
  intros env run.
  apply (chdir_failure_aborts env "/tmp/report.csv" "report.csv" "ramp" fresh_world
           run.1 run.2 "/incoming" (Exn FileNotFoundError "[Errno 2] No such file")).
  - vm_compute. reflexivity.
  - apply list_elem_of_In. vm_compute. tauto.
  - reflexivity.
  - reflexivity.
Defined.

Lemma upload_failure_leaves_connection_open_witness :
  let env := scenario (Ret tt) (Raise (Exn OSError "Failure")) (Ret (mkResponse 200 "OK")) in
  let w := with_fs (<["/tmp/report.csv" := File ["x"%byte]]>) fresh_world in
  ∃ w', upload_to_sftp env "/tmp/report.csv" "report.csv" "ramp" w = (Ret false, w')
        ∧ transport_active w' = true
        ∧ (EvSftpClose ∉ events_since w w')
        ∧ (EvTransportClose ∉ events_since w w').
Proof.
  intros env w.
  apply (upload_failure_leaves_connection_open env "/tmp/report.csv" "report.csv" "ramp" w
           "sftp.example.com" "uploader" "hunter2" "/incoming").
  - repeat split; vm_compute; reflexivity.
  - reflexivity.
  - apply (put_fails_sending _ _ _ _ _ _ ["x"%byte] (Exn OSError "Failure"));
      vm_compute; reflexivity.
Defined.

Lemma process_csv_upload_removes_temp_file_witness :
  let run := process_csv_upload all_well (Bytes ["x"%byte]) "report.csv" "ramp" fresh_world in
  run.1 = Ret (mkResult "success" "File report.csv uploaded successfully")
  ∧ fs run.2 !! "/tmp/report.csv" = None.
Proof.
  intros run.
  assert (Hrun : process_csv_upload all_well (Bytes ["x"%byte]) "report.csv" "ramp" fresh_world
                 = (Ret (mkResult "success" "File report.csv uploaded successfully"), run.2))
    by (vm_compute; reflexivity).
  split.
  - vm_compute. reflexivity.
  - exact (process_csv_upload_removes_temp_file _ _ _ _ _ _ _ Hrun).
Defined.

Lemma payload_branches_agree_witness :
  process_csv_upload all_well (Bytes ["x"%byte]) "report.csv" "ramp" fresh_world
  = process_csv_upload all_well (Stream (Ret ["x"%byte])) "report.csv" "ramp" fresh_world.
Proof.
  exact (proj2 (proj2 (payload_branches_agree all_well ["x"%byte] "report.csv" "ramp" fresh_world))).
Defined.

Lemma missing_key_fails_before_any_call_witness :
  export_and_upload without_key "" fresh_world
  = (Ret ("Error: SERVICE_ACCOUNT_KEY environment variable is not set" ++ NL ++ NL
          ++ "Details: "
          ++ format_exc without_key
               (Exn ValueError "SERVICE_ACCOUNT_KEY environment variable is not set"),
          500%Z), fresh_world).
Proof.
  apply (missing_key_fails_before_any_call without_key "" fresh_world).
  left. reflexivity.
Defined.

Lemma relay_outcome_witness :
  let env := scenario (Ret tt) (Ret tt) (Ret (mkResponse 503 "busy")) in
  let w1 := (export_stage env fresh_world).2 in
  ∃ w' content,
    export_and_upload env "" fresh_world
    = (Ret ("Error uploading to Cloud Run: busy", 500%Z), w')
    ∧ fs w1 !! "/tmp/tmpk3x9_q2a.csv" = Some (File content)
    ∧ fs w' = delete "/tmp/tmpk3x9_q2a.csv" (fs w1)
    ∧ fs w' !! "/tmp/tmpk3x9_q2a.csv" = None
    ∧ trace w' = (trace w1 ++ [EvPost CLOUD_RUN_URL "tmpk3x9_q2a.csv" content "text/csv"])%list.
Proof.
  intros env w1.
  apply (relay_outcome env "" fresh_world "/tmp/tmpk3x9_q2a.csv" 3 w1 (mkResponse 503 "busy")).
  - vm_compute. reflexivity.
  - intros content _. reflexivity.
Defined.

Lemma three_rows_match_schema : rows_match_schema three_rows.
Proof. repeat constructor; eexists; vm_compute; reflexivity. Defined.

Lemma export_file_round_trip_within_limit_witness :
  fields_within_limit three_rows = true
  ∧ ∃ content,
      fs (write_csv all_well three_rows fresh_world).2 !! "/tmp/tmpk3x9_q2a.csv"
      = Some (File content)
      ∧ Csv.read_default (decode content)
        = Some (map list_ascii_of_string ["id"; "name"]
                :: map (map list_ascii_of_string)
                     [["1"; "Ada"]; ["2"; "Grace"]; ["3"; "Smith, J."]]).
Proof.
  split; [vm_compute; reflexivity|].
  apply (proj1 (export_file_round_trip_within_limit all_well three_rows fresh_world
                  ltac:(vm_compute; reflexivity))
           "/tmp/tmpk3x9_q2a.csv" 3%nat).
  vm_compute. reflexivity.
Defined.

Lemma export_file_has_header_and_rows_witness :
  ∃ w3 content records w',
    export_stage all_well fresh_world = (Ret ("/tmp/tmpk3x9_q2a.csv", 3), w3)
    ∧ fs w3 !! "/tmp/tmpk3x9_q2a.csv" = Some (File content)
    ∧ Csv.read (decode content) = Some (header_record three_rows :: records)
    ∧ length (header_record three_rows) = 2
    ∧ length records = 3
    ∧ Forall (fun record => length record = 2) records
    ∧ (∀ i row, rs_rows three_rows !! i = Some row →
         records !! i = Some (map (cell row) (rs_schema three_rows)))
    ∧ export_and_upload all_well "" fresh_world
      = (Ret ("Successfully exported 3 rows and uploaded to RAMP Data Upload", 200%Z), w')
    ∧ (EvPost CLOUD_RUN_URL "tmpk3x9_q2a.csv" content "text/csv" ∈ events_since w3 w').
Proof.
  pose (credentials := mkCredentials "{}" SCOPES (Some DELEGATED_USER)).
  pose (w1 := (run_query all_well credentials fresh_world).2).
  apply (export_file_has_header_and_rows all_well "" fresh_world credentials fresh_world
           three_rows w1 "/tmp/tmpk3x9_q2a.csv"
           (NamedTemporaryFile all_well ".csv" w1).2 (mkResponse 200 "OK")).
  - reflexivity.
  - vm_compute. reflexivity.
  - vm_compute. reflexivity.
  - reflexivity.
  - exact three_rows_match_schema.
  - reflexivity.
  - reflexivity.
Defined.
End Witnesses.

(** * More about the two files *)

(** ** [upload_to_sftp], beyond its failure paths *)

Module SftpMore.
Import SftpUpload SftpFacts.

(** X1. [upload_to_sftp] never raises: whatever the secret store and the
    server answer, it returns a boolean; it leaves every local file as it
    was and only adds to the trace. *)
Theorem upload_to_sftp_catches_everything env l r p w :
  ∃ b w' evs,
    upload_to_sftp env l r p w = (Ret b, w')
    ∧ fs w' = fs w
    ∧ trace w' = (trace w ++ evs)%list.
Proof.
  unfold_upload.
  repeat case_env; eexists _, _, _;
    (split_and!; [reflexivity | reflexivity |
                  simpl; rewrite <- ?app_assoc; simpl; reflexivity]).
Qed.

(** X2. The run in which every step works: the four secrets are looked up
    in the order host, user name, password, directory; the transport goes to
    the host on port 22 with the user name and password; the file is put
    under exactly the name given, with the content of the local file; the
    session and then the transport are closed; the result is [True]. *)
Theorem upload_success_trace env l r p w host user pw dir c :
  secrets_resolve env p host user pw dir →
  sftp_transport env host 22 = Ret tt →
  sftp_connect env user pw = Ret tt →
  sftp_from_transport env = Ret tt →
  remote_chdir env dir = Ret tt →
  fs w !! l = Some (File c) →
  remote_put env r c = Ret tt →
  ∃ w', upload_to_sftp env l r p w = (Ret true, w')
        ∧ events_since w w'
          = [EvSecret (secret_name p "SFTP_HOST" "latest");
             EvSecret (secret_name p "SFTP_USERNAME" "latest");
             EvSecret (secret_name p "SFTP_PASSWORD" "latest");
             EvSecret (secret_name p "SFTP_DIRECTORY" "latest");
             EvTransport host 22; EvConnect user pw; EvSftpOpen; EvChdir dir;
             EvPut l r (Some c); EvSftpClose; EvTransportClose;
             EvLog INFO ("Successfully uploaded " ++ l ++ " to " ++ dir ++ "/" ++ r)]
        ∧ transport_active w' = false
        ∧ sftp_active w' = false
        ∧ fs w' = fs w.
Proof.
  intros (Hc & Hh & Hu & Hp & Hd) Ht Hco Hse Hch Hl Hput.
  unfold_upload. rewrite Hc, Hh, Hu, Hp, Hd, Ht, Hco, Hse, Hch. simpl.
  rewrite Hl. simpl. rewrite Hput. simpl.
  eexists. split_and!; try reflexivity. norm_events. reflexivity.
Qed.

Lemma upload_true_inv env l r p w w' :
  upload_to_sftp env l r p w = (Ret true, w') →
  ∃ c, fs w !! l = Some (File c)
       ∧ remote_put env r c = Ret tt
       ∧ (EvPut l r (Some c) ∈ events_since w w')
       ∧ transport_active w' = false
       ∧ sftp_active w' = false.
Proof.
  unfold_upload.
  repeat case_env; intros Hrun; simplify_eq.
  eexists. split_and!; [reflexivity | | | reflexivity | reflexivity].
  - match goal with H : remote_put _ _ _ = Ret ?a |- _ => destruct a; exact H end.
  - norm_events. apply list_elem_of_In. simpl. tauto.
Qed.

(** X3. [upload_to_sftp] answers [True] only when the local file was there,
    the server accepted it under the name given, and both the session and
    the transport have been closed; the local file is still in place. *)
Theorem upload_true_means_uploaded env l r p w w' :
  upload_to_sftp env l r p w = (Ret true, w') →
  ∃ c, fs w !! l = Some (File c)
       ∧ remote_put env r c = Ret tt
       ∧ (EvPut l r (Some c) ∈ events_since w w')
       ∧ transport_active w' = false
       ∧ sftp_active w' = false
       ∧ fs w' !! l = Some (File c).
Proof.
  intros Hrun.
  destruct (upload_true_inv _ _ _ _ _ _ Hrun) as (c & Hc & Hput & Hin & Hta & Hsa).
  destruct (upload_to_sftp_returns env l r p w) as (b & w2 & Hrun' & Hfs).
  rewrite Hrun in Hrun'. injection Hrun' as _ <-.
  exists c. split_and!; try assumption.
  rewrite Hfs. exact Hc.
Qed.

(** X4. When the secret store cannot be reached, or any of the four secrets
    cannot be read, [upload_to_sftp] returns [False] without opening any
    connection to the SFTP server. *)
Theorem secret_failure_opens_no_connection env l r p w e :
  secret_client env = Raise e
  ∨ (∃ k, k ∈ ["SFTP_HOST"; "SFTP_USERNAME"; "SFTP_PASSWORD"; "SFTP_DIRECTORY"]
          ∧ access_secret_version env (secret_name p k "latest") = Raise e) →
  ∃ w', upload_to_sftp env l r p w = (Ret false, w')
        ∧ (∀ host port, EvTransport host port ∉ events_since w w')
        ∧ transport_active w' = transport_active w
        ∧ sftp_active w' = sftp_active w.
Proof.
  intros Hfail.
  assert (Hcases :
    secret_client env = Raise e
    ∨ access_secret_version env (secret_name p "SFTP_HOST" "latest") = Raise e
    ∨ access_secret_version env (secret_name p "SFTP_USERNAME" "latest") = Raise e
    ∨ access_secret_version env (secret_name p "SFTP_PASSWORD" "latest") = Raise e
    ∨ access_secret_version env (secret_name p "SFTP_DIRECTORY" "latest") = Raise e).
  { destruct Hfail as [H | (k & Hk & H)]; [left; exact H | right].
    apply list_elem_of_In in Hk. simpl in Hk. destruct_or?; subst; tauto. }
  clear Hfail. revert Hcases. unfold_upload.
  destruct (secret_client env) as [[]|e0] eqn:Hc; simpl.
  2: { intros _. eexists. split_and!; try reflexivity.
       intros host port. norm_events. not_listed. }
  destruct (access_secret_version env (secret_name p "SFTP_HOST" "latest"))
    as [host|e1] eqn:Hh; simpl.
  2: { intros _. eexists. split_and!; try reflexivity.
       intros host port. norm_events. not_listed. }
  destruct (access_secret_version env (secret_name p "SFTP_USERNAME" "latest"))
    as [user|e2] eqn:Hu; simpl.
  2: { intros _. eexists. split_and!; try reflexivity.
       intros host' port. norm_events. not_listed. }
  destruct (access_secret_version env (secret_name p "SFTP_PASSWORD" "latest"))
    as [pw|e3] eqn:Hp; simpl.
  2: { intros _. eexists. split_and!; try reflexivity.
       intros host' port. norm_events. not_listed. }
  destruct (access_secret_version env (secret_name p "SFTP_DIRECTORY" "latest"))
    as [dir|e4] eqn:Hd; simpl.
  2: { intros _. eexists. split_and!; try reflexivity.
       intros host' port. norm_events. not_listed. }
  intros H. destruct_or?; discriminate.
Qed.

(** X5. Whatever happens, [upload_to_sftp] looks up no secret but the four
    of the project given, at version [latest]; it connects to no host but
    the one the secret [SFTP_HOST] names, on port 22, with no other user
    name and password than the secrets'; it changes to no directory but
    the secret's; and it puts no file but the local path given, under no
    name but the remote name given. *)
Theorem upload_talks_to_resolved_server env l r p w :
  let evs := events_since w (upload_to_sftp env l r p w).2 in
  (∀ name, EvSecret name ∈ evs →
     ∃ k, k ∈ ["SFTP_HOST"; "SFTP_USERNAME"; "SFTP_PASSWORD"; "SFTP_DIRECTORY"]
          ∧ name = secret_name p k "latest")
  ∧ (∀ host port, EvTransport host port ∈ evs →
       port = 22%Z
       ∧ access_secret_version env (secret_name p "SFTP_HOST" "latest") = Ret host)
  ∧ (∀ user pw, EvConnect user pw ∈ evs →
       access_secret_version env (secret_name p "SFTP_USERNAME" "latest") = Ret user
       ∧ access_secret_version env (secret_name p "SFTP_PASSWORD" "latest") = Ret pw)
  ∧ (∀ dir, EvChdir dir ∈ evs →
       access_secret_version env (secret_name p "SFTP_DIRECTORY" "latest") = Ret dir)
  ∧ (∀ lp rp data, EvPut lp rp data ∈ evs → lp = l ∧ rp = r ∧ data = match fs w !! l with Some (File c) => Some c | _ => None end).
Proof.
  cbv zeta. unfold_upload.
  repeat case_env; norm_events;
    (split_and!;
     [ intros name H | intros host port H | intros user pw H | intros dir H
     | intros lp rp data H ];
     apply list_elem_of_In in H; simpl in H; destruct_or?; simplify_eq; try done;
     try (split; congruence); try congruence;
     try (eexists; split; [|reflexivity]; apply list_elem_of_In; simpl; tauto)).
Qed.

(** ** [process_csv_upload], beyond the clean-up *)

Lemma events_since_same_traces w1 w1' w2 w2' :
  trace w1 = trace w2 → trace w1' = trace w2' →
  events_since w1 w1' = events_since w2 w2'.
Proof. unfold events_since. intros -> ->. reflexivity. Qed.

(** When [save_payload] returns, the file holds the payload, and nothing
    else has changed. *)
Lemma save_payload_ret env data path w w1 :
  save_payload env data path w = (Ret tt, w1) →
  ∃ b, (data = Bytes b ∨ data = Stream (Ret b))
       ∧ w1 = mkWorld (<[path := File b]> (fs w)) (trace w)
                      (transport_active w) (sftp_active w).
Proof.
  unfold save_payload. destruct data as [b | [b | e]];
    unfold open_wb, write; unfold_py;
    destruct (fs w !! path) as [[c|]|] eqn:E;
    destruct (os_open_error env path);
    simpl; rewrite ?lookup_insert_eq; simpl; intros H; simplify_eq.
  all: exists b; split; [auto|]; unfold with_fs; simpl;
    rewrite insert_insert_eq; reflexivity.
Qed.

(** When it raises, at most an empty file has appeared at the path. *)
Lemma save_payload_raise env data path w e w1 :
  save_payload env data path w = (Raise e, w1) →
  trace w1 = trace w
  ∧ transport_active w1 = transport_active w
  ∧ sftp_active w1 = sftp_active w
  ∧ (fs w1 = fs w ∨ fs w1 = <[path := File []]> (fs w)).
Proof.
  unfold save_payload. destruct data as [b | [b | e']];
    unfold open_wb, write; unfold_py;
    destruct (fs w !! path) as [[c|]|] eqn:E;
    destruct (os_open_error env path);
    simpl; rewrite ?lookup_insert_eq; simpl; intros H; simplify_eq;
    simpl; auto.
Qed.

Lemma remove_if_exists_shape path w :
  match fs w !! path with
  | Some Dir =>
      remove_if_exists path w
      = (Raise (Exn IsADirectoryError ("[Errno 21] Is a directory: '" ++ path ++ "'")), w)
  | _ =>
      ∃ w', remove_if_exists path w = (Ret tt, w')
            ∧ fs w' = delete path (fs w)
            ∧ trace w' = trace w
            ∧ transport_active w' = transport_active w
            ∧ sftp_active w' = sftp_active w
  end.
Proof.
  unfold remove_if_exists, os_path_exists, os_remove. unfold_py.
  destruct (fs w !! path) as [[c|]|] eqn:E; simpl; rewrite ?E.
  - eexists. split_and!; reflexivity.
  - reflexivity.
  - eexists. split_and!; try reflexivity. symmetry. apply delete_id, E.
Qed.

(** The handler of [process_csv_upload], run on a world where the path is
    not a directory. *)
Lemma handler_shape path (res : Result) msg w :
  fs w !! path ≠ Some Dir →
  ∃ w', (logging_error msg;; remove_if_exists path;; mret res) w = (Ret res, w')
        ∧ fs w' = delete path (fs w)
        ∧ trace w' = (trace w ++ [EvLog ERROR msg])%list
        ∧ transport_active w' = transport_active w
        ∧ sftp_active w' = sftp_active w.
Proof.
  intros Hnd. unfold logging_error, emit. cbv [mbind M_bind bind mret M_ret ret].
  pose proof (remove_if_exists_shape path (with_event (EvLog ERROR msg) w)) as Hr.
  simpl fs in Hr.
  destruct (fs w !! path) as [[c|]|] eqn:E; try done;
    destruct Hr as (w' & -> & Hfs & Htr & Hta & Hsa); eauto 10.
Qed.

Lemma handler_result path (res : Result) msg w r w' :
  (logging_error msg;; remove_if_exists path;; mret res) w = (Ret r, w') → r = res.
Proof.
  unfold logging_error, emit. cbv [mbind M_bind bind mret M_ret ret].
  destruct (remove_if_exists path (with_event (EvLog ERROR msg) w)) as [[[]|e] w1];
    intros H; simplify_eq. reflexivity.
Qed.

(** X6. [process_csv_upload] reports success only when the payload itself
    went to the server: the bytes put are the bytes given (or read from the
    stream), the remote name is the file name, and the connection has been
    closed. *)
Theorem success_means_payload_uploaded env data filename project_id w r w' :
  process_csv_upload env data filename project_id w = (Ret r, w') →
  status r = "success" →
  ∃ b, (data = Bytes b ∨ data = Stream (Ret b))
       ∧ message r = "File " ++ filename ++ " uploaded successfully"
       ∧ remote_put env filename b = Ret tt
       ∧ (EvPut ("/tmp/" ++ filename) filename (Some b) ∈ events_since w w')
       ∧ transport_active w' = false.
Proof.
  rewrite process_csv_upload_body. cbv zeta.
  destruct (save_payload env data ("/tmp/" ++ filename) w) as [[[]|e] w1] eqn:Hs.
  2: { intros H Hst. apply handler_result in H. subst r. discriminate Hst. }
  destruct (save_payload_ret _ _ _ _ _ Hs) as (b & Hdata & ->).
  match goal with
  | |- context [upload_to_sftp env ?l ?f ?p ?w1] =>
      destruct (upload_to_sftp env l f p w1) as [[success|e] w2] eqn:Hup;
      [ destruct (upload_to_sftp_returns env l f p w1) as (b' & w2' & Hup' & Hfs);
        rewrite Hup in Hup'; injection Hup' as <- <- | ]
  end.
  2: { intros H Hst. apply handler_result in H. subst r. discriminate Hst. }
  pose proof (remove_if_exists_shape ("/tmp/" ++ filename) w2) as Hr.
  rewrite Hfs in Hr. simpl in Hr. rewrite lookup_insert_eq in Hr.
  destruct Hr as (w3 & -> & _ & Htr & Hta & _).
  destruct success; intros H Hst; simplify_eq.
  apply upload_true_inv in Hup as (c & Hc & Hput & Hin & Hact & _).
  simpl in Hc. rewrite lookup_insert_eq in Hc. injection Hc as <-.
  exists b. split_and!; auto.
  - erewrite events_since_same_traces; [exact Hin | reflexivity | exact Htr].
  - congruence.
Qed.

(** X8. Nothing exists at [/tmp/<filename>] before the call, and the local
    file cannot be created, or the stream cannot be read: then
    [process_csv_upload] makes no call to the secret store or to the
    server.  It logs the exception and returns an error result with the
    exception's message, and the local files are what they were: the file
    it may have created is removed again. *)
Theorem failed_save_is_reported_without_upload env data filename project_id w e :
  fs w !! ("/tmp/" ++ filename) = None →
  os_open_error env ("/tmp/" ++ filename) = Some e
  ∨ (os_open_error env ("/tmp/" ++ filename) = None ∧ data = Stream (Raise e)) →
  ∃ w', process_csv_upload env data filename project_id w
        = (Ret (mkResult "error" (str e)), w')
        ∧ events_since w w' = [EvLog ERROR ("Error processing upload: " ++ str e)]
        ∧ fs w' = fs w.
Proof.
  intros Hfree Hcause. rewrite process_csv_upload_body. cbv zeta.
  assert (Hs : ∃ w1, save_payload env data ("/tmp/" ++ filename) w = (Raise e, w1)
                     ∧ trace w1 = trace w
                     ∧ fs w1 !! ("/tmp/" ++ filename) ≠ Some Dir
                     ∧ delete ("/tmp/" ++ filename) (fs w1)
                       = delete ("/tmp/" ++ filename) (fs w)).
  { unfold save_payload, open_wb, write.
    destruct Hcause as [He | [He ->]].
    - destruct data as [b | rd]; unfold_py; rewrite Hfree, He;
        eexists; split_and!; try reflexivity; rewrite Hfree; done.
    - unfold_py. rewrite Hfree, He. simpl.
      eexists; (split_and!; [reflexivity | reflexivity | |]);
        simpl; rewrite ?lookup_insert_eq, ?delete_insert_eq; done. }
  destruct Hs as (w1 & -> & Htr & Hnd1 & Hdel).
  destruct (handler_shape ("/tmp/" ++ filename) (mkResult "error" (str e))
              ("Error processing upload: " ++ str e) w1 Hnd1)
    as (w' & -> & Hfs & Htr' & _).
  eexists. split_and!; [reflexivity | |].
  - apply events_since_app. rewrite Htr', Htr. reflexivity.
  - rewrite Hfs, Hdel. apply delete_id, Hfree.
Qed.
End SftpMore.

(** ** [export_and_upload], run by run *)

Module MainMore.
Import Main MainFacts.

Lemma delegated_credentials_shape env w :
  (∃ e, delegated_credentials env w = (Raise e, w))
  ∨ (∃ c, delegated_credentials env w = (Ret c, w)
          ∧ cred_subject c = Some DELEGATED_USER).
Proof.
  unfold delegated_credentials. unfold_py.
  destruct (os_environ env "SERVICE_ACCOUNT_KEY") as [[|a k]|]; eauto.
  destruct (b64decode env (String a k)) as [raw|e]; eauto.
  destruct (decode_utf8 env raw) as [key_json|e]; eauto.
  destruct (json_loads env key_json) as [info|e]; eauto.
  destruct (from_service_account_info env info SCOPES) as [c|e]; eauto.
Qed.

Lemma row_values_world row columns w o w' :
  row_values row columns w = (o, w') → w' = w.
Proof.
  revert o. induction columns as [|column columns IH]; intros o; simpl.
  - intros H. inversion H. reflexivity.
  - unfold row_getitem. cbv [mbind M_bind bind mret M_ret ret raise].
    destruct (row !! column); [|intros H; inversion H; reflexivity].
    destruct (row_values row columns w) as [[vs|e] w1] eqn:E;
      intros H; inversion H; subst; eapply IH; reflexivity.
Qed.

(** However the loop over the rows ends, it has only appended to the file. *)
Lemma write_rows_frame temp columns rows : ∀ row_count w c o w',
  fs w !! temp = Some (File c) →
  write_rows temp columns rows row_count w = (o, w') →
  ∃ c', w' = mkWorld (<[temp := File c']> (fs w)) (trace w)
                     (transport_active w) (sftp_active w).
Proof.
  induction rows as [|row rows IH]; intros row_count w c o w' Hc.
  - simpl. intros H. inversion H. subst. exists c.
    rewrite insert_id by exact Hc. symmetry. apply world_eta.
  - cbn [write_rows]. cbv [mbind M_bind bind].
    destruct (row_values row columns w) as [[values|e] w1] eqn:Hv;
      apply row_values_world in Hv; subst w1.
    + unfold csv_writerow, write. rewrite Hc. intros H.
      eapply IH in H as [c' ->]; [|apply lookup_insert_eq].
      exists c'. unfold with_fs. simpl. rewrite insert_insert_eq. reflexivity.
    + intros H. inversion H. subst. exists c.
      rewrite insert_id by exact Hc. symmetry. apply world_eta.
Qed.

Lemma mkstemp_inner_raise env names suffix w e w1 :
  mkstemp_inner env names suffix w = (Raise e, w1) → w1 = w.
Proof.
  induction names as [|name names IH]; simpl.
  - intros H. inversion H. reflexivity.
  - destruct (fs w !! (tempdir env ++ "/" ++ "tmp" ++ name ++ suffix)); [exact IH|].
    destruct (os_open_error env _); intros H; inversion H. reflexivity.
Qed.

Lemma mkstemp_inner_name env names suffix w temp w1 :
  mkstemp_inner env names suffix w = (Ret temp, w1) →
  ∃ name, name ∈ names ∧ temp = tempdir env ++ "/" ++ "tmp" ++ name ++ suffix.
Proof.
  induction names as [|name names IH]; simpl; [discriminate|].
  destruct (fs w !! (tempdir env ++ "/" ++ "tmp" ++ name ++ suffix)).
  - intros H. destruct (IH H) as (nm & Hnm & ->). exists nm. split; [|reflexivity].
    apply list_elem_of_In. right. apply list_elem_of_In, Hnm.
  - destruct (os_open_error env _); intros H; inversion H.
    exists name. split; [|reflexivity]. apply list_elem_of_In. left. reflexivity.
Qed.

(** The three ways [write_csv] can end. *)
Lemma write_csv_shape env results w :
  (∃ e, write_csv env results w = (Raise e, w))
  ∨ (∃ e temp c, fs w !! temp = None
       ∧ write_csv env results w
         = (Raise e, mkWorld (<[temp := File c]> (fs w)) (trace w ++ [EvFetch])
                             (transport_active w) (sftp_active w)))
  ∨ (∃ temp name, fs w !! temp = None
       ∧ name ∈ tmp_names env
       ∧ temp = tempdir env ++ "/" ++ "tmp" ++ name ++ ".csv"
       ∧ rs_error results = None
       ∧ rows_match_schema results
       ∧ write_csv env results w
         = (Ret (temp, length (rs_rows results)),
            mkWorld (<[temp := File (encode (export_text results))]> (fs w))
                    (trace w ++ [EvFetch]) (transport_active w) (sftp_active w))).
Proof.
  destruct (write_csv env results w) as [[[temp n]|e] w2] eqn:Hrun.
  - right. right.
    destruct (write_csv_ret _ _ _ _ _ _ Hrun) as ([w1 Htemp] & Herr & Hrows).
    destruct (write_csv_ok _ _ _ _ _ Htemp Herr Hrows) as [Hfree Hcsv].
    destruct (mkstemp_inner_name _ _ _ _ _ _ Htemp) as (name & Hname & Heq).
    rewrite Hcsv in Hrun. simplify_eq. eauto 10.
  - revert Hrun. unfold write_csv. cbv [mbind M_bind bind].
    destruct (NamedTemporaryFile env ".csv" w) as [[temp|e0] w0] eqn:Htemp.
    2: { apply mkstemp_inner_raise in Htemp. subst w0.
         intros H. inversion H. subst. left. eauto. }
    apply mkstemp_inner_ret in Htemp as [Hfree ->].
    unfold csv_writerow at 1. unfold write at 1. simpl fs. rewrite lookup_insert_eq.
    unfold emit.
    match goal with
    | |- context [write_rows ?t ?cs ?rs ?n ?w0] =>
        destruct (write_rows t cs rs n w0) as [[n'|e1] w3] eqn:Hrows
    end;
      (eapply write_rows_frame in Hrows as [c' ->]; [|apply lookup_insert_eq]).
    + destruct (rs_error results) as [e2|]; [|discriminate].
      unfold raise. intros H. inversion H. subst. right. left.
      exists e, temp, c'. split; [exact Hfree|].
      unfold with_fs, with_event. simpl. rewrite !insert_insert_eq. reflexivity.
    + intros H. inversion H. subst. right. left.
      exists e, temp, c'. split; [exact Hfree|].
      unfold with_fs, with_event. simpl. rewrite !insert_insert_eq. reflexivity.
Qed.

(** Every run of [export_and_upload]: where it stops, what it answers, and
    the world it leaves. *)
Lemma export_and_upload_cases env request w :
  (∃ e, export_and_upload env request w = (Ret (error_response env e), w))
  ∨ (∃ e, export_and_upload env request w
          = (Ret (error_response env e), after w (fs w) [the_query]))
  ∨ (∃ e, export_and_upload env request w
          = (Ret (error_response env e), after w (fs w) [the_query; EvResult]))
  ∨ (∃ e temp c, fs w !! temp = None
       ∧ export_and_upload env request w
         = (Ret (error_response env e),
            after w (<[temp := File c]> (fs w)) [the_query; EvResult; EvFetch]))
  ∨ (∃ results temp name,
       bq_result env = Ret results
       ∧ rs_error results = None ∧ rows_match_schema results
       ∧ fs w !! temp = None
       ∧ name ∈ tmp_names env ∧ temp = tempdir env ++ "/" ++ "tmp" ++ name ++ ".csv"
       ∧ ((∃ e, requests_post env CLOUD_RUN_URL (basename temp)
                  (encode (export_text results)) "text/csv" = Raise e
                ∧ export_and_upload env request w
                  = (Ret (error_response env e),
                     after w (<[temp := File (encode (export_text results))]> (fs w))
                       [the_query; EvResult; EvFetch;
                        the_post temp (encode (export_text results))]))
          ∨ (∃ resp, requests_post env CLOUD_RUN_URL (basename temp)
                       (encode (export_text results)) "text/csv" = Ret resp
                ∧ export_and_upload env request w
                  = (Ret (if (status_code resp =? 200)%Z
                          then ("Successfully exported " ++ pretty (length (rs_rows results))
                                ++ " rows and uploaded to RAMP Data Upload", 200%Z)
                          else ("Error uploading to Cloud Run: " ++ text resp, 500%Z)),
                     after w (fs w)
                       [the_query; EvResult; EvFetch;
                        the_post temp (encode (export_text results))])))).
Proof.
  unfold export_and_upload, try_except, export_stage. cbv [mbind M_bind bind].
  destruct (delegated_credentials_shape env w) as [[e ->] | (c & -> & Hsubject)].
  { left. eauto. }
  right. unfold run_query, call, emit, lift. cbv [mbind M_bind bind].
  rewrite Hsubject. fold the_query.
  destruct (bq_query env PROJECT c QUERY) as [[]|e].
  2: { left. exists e. reflexivity. }
  right. destruct (bq_result env) as [results|e] eqn:Hresult.
  2: { left. exists e. unfold after, with_event. simpl.
       rewrite <- app_assoc. reflexivity. }
  assert (Hw1 : with_event EvResult (with_event the_query w)
                = after w (fs w) [the_query; EvResult]).
  { unfold after, with_event. simpl. rewrite <- app_assoc. reflexivity. }
  rewrite Hw1.
  destruct (write_csv_shape env results (after w (fs w) [the_query; EvResult]))
    as [[e ->] | [(e & temp & c' & Hfree & ->) | (temp & name & Hfree & Hname & Htemp & Herr & Hrows & ->)]].
  { left. eauto. }
  { right. left. exists e, temp, c'. split; [exact Hfree|].
    unfold after. simpl. rewrite <- !app_assoc. reflexivity. }
  right. right. exists results, temp, name.
  split_and!; try done.
  cbv beta iota.
  destruct (requests_post env CLOUD_RUN_URL (basename temp)
              (encode (export_text results)) "text/csv") as [resp|e] eqn:Hpost.
  - right. exists resp. split; [reflexivity|].
    erewrite relay_stage_ok; [| apply lookup_insert_eq | exact Hpost].
    f_equal. unfold after. simpl. rewrite <- !app_assoc. simpl.
    rewrite delete_insert_id by exact Hfree. reflexivity.
  - left. exists e. split; [reflexivity|].
    unfold relay_stage, read_rb. unfold_py. simpl. rewrite lookup_insert_eq.
    rewrite Hpost. unfold after, the_post, with_event. simpl.
    rewrite <- !app_assoc. reflexivity.
Qed.

Lemma events_since_after w files evs : events_since w (after w files evs) = evs.
Proof. apply events_since_app. reflexivity. Qed.

Lemma events_since_same w : events_since w w = [].
Proof. unfold events_since. apply drop_all. Qed.

(** X9. [export_and_upload] never raises: it always answers with a body and
    the status 200 or 500.  It answers 200 only if the relay answered the
    POST of the export with 200; the body then carries the number of rows,
    and the local files are what they were before the call. *)
Theorem export_and_upload_always_answers env request w :
  ∃ body st w',
    export_and_upload env request w = (Ret (body, st), w')
    ∧ (st = 200%Z ∨ st = 500%Z)
    ∧ (st = 200%Z →
       fs w' = fs w
       ∧ ∃ results temp resp,
           bq_result env = Ret results
           ∧ requests_post env CLOUD_RUN_URL (basename temp)
               (encode (export_text results)) "text/csv" = Ret resp
           ∧ status_code resp = 200%Z
           ∧ (the_post temp (encode (export_text results)) ∈ events_since w w')
           ∧ body = "Successfully exported " ++ pretty (length (rs_rows results))
                    ++ " rows and uploaded to RAMP Data Upload").
Proof.
  destruct (export_and_upload_cases env request w)
    as [[e ->] | [[e ->] | [[e ->] | [(e & temp & c & _ & ->) |
        (results & temp & name & Hres & _ & _ & _ & _ & _ & [(e & _ & ->) | (resp & Hpost & ->)])]]]].
  1-5: unfold error_response; eexists _, _, _;
       (split_and!; [reflexivity | right; reflexivity | discriminate]).
  destruct (status_code resp =? 200)%Z eqn:Hst.
  - eexists _, _, _. split_and!; [reflexivity | left; reflexivity |].
    intros _. split; [reflexivity|].
    exists results, temp, resp. split_and!; auto.
    + apply Z.eqb_eq, Hst.
    + rewrite events_since_after. apply list_elem_of_In. simpl. tauto.
  - eexists _, _, _. split_and!; [reflexivity | right; reflexivity | discriminate].
Qed.

(** X10. However [export_and_upload] ends, every local path that existed
    before the call holds what it held: the export goes to a path that did
    not exist, and nothing else is written or removed. *)
Theorem export_and_upload_keeps_existing_files env request w q :
  is_Some (fs w !! q) →
  fs (export_and_upload env request w).2 !! q = fs w !! q.
Proof.
  intros Hq.
  destruct (export_and_upload_cases env request w)
    as [[e ->] | [[e ->] | [[e ->] | [(e & temp & c & Hfree & ->) |
        (results & temp & name & _ & _ & _ & Hfree & _ & _ & [(e & _ & ->) | (resp & _ & ->)])]]]];
    simpl; try reflexivity.
  all: apply lookup_insert_ne; intros ->; rewrite Hfree in Hq; destruct Hq; discriminate.
Qed.

(** X11. [export_and_upload] posts only to the relay URL, as [text/csv], and
    only a complete export: whenever a POST is made, the query had returned
    a result set whose iteration ended without error and whose rows all had
    the schema's columns, and the body is the export of all of it, which
    the standard reader parses into the header and one record per row. *)
Theorem only_complete_exports_are_relayed env request w url name content mime :
  EvPost url name content mime ∈ events_since w (export_and_upload env request w).2 →
  url = CLOUD_RUN_URL ∧ mime = "text/csv"
  ∧ ∃ results,
      bq_result env = Ret results
      ∧ rs_error results = None
      ∧ rows_match_schema results
      ∧ content = encode (export_text results)
      ∧ Csv.read (decode content) = Some (header_record results :: data_records results).
Proof.
  destruct (export_and_upload_cases env request w)
    as [[e ->] | [[e ->] | [[e ->] | [(e & temp & c & Hfree & ->) |
        (results & temp & nm & Hres & Herr & Hrows & _ & _ & _ & [(e & _ & ->) | (resp & _ & ->)])]]]];
    simpl snd; rewrite ?events_since_after, ?events_since_same;
    intros Hin; apply list_elem_of_In in Hin; simpl in Hin;
    unfold the_query, the_post in Hin; destruct_or?; simplify_eq; try done.
  all: split_and!; try reflexivity; exists results; split_and!; auto;
    apply read_export_text.
Qed.

(** X12. The calls of a run of [export_and_upload] are an initial part of:
    the fixed query, under the delegated identity, in the fixed project;
    the wait for its result; the iteration over the rows; one POST.  There
    is no second query, no second POST, and no POST before the rows have
    been read. *)
Theorem export_and_upload_call_order env request w :
  ∃ temp content,
    events_since w (export_and_upload env request w).2
    `prefix_of` [the_query; EvResult; EvFetch; the_post temp content].
Proof.
  destruct (export_and_upload_cases env request w)
    as [[e ->] | [[e ->] | [[e ->] | [(e & temp & c & Hfree & ->) |
        (results & temp & nm & _ & _ & _ & _ & _ & _ & [(e & _ & ->) | (resp & _ & ->)])]]]];
    simpl snd; rewrite ?events_since_after, ?events_since_same.
  - exists "", []. apply prefix_nil.
  - exists "", []. eexists. reflexivity.
  - exists "", []. eexists. reflexivity.
  - exists "", []. eexists. reflexivity.
  - eexists _, _. exists []. reflexivity.
  - eexists _, _. exists []. reflexivity.
Qed.

(** *** The name the export is relayed under *)

Lemma append_nil_r s : s ++ "" = s.
Proof.
  induction s as [|a s IH]; [reflexivity|].
  change (String a s ++ "") with (String a (s ++ "")). rewrite IH. reflexivity.
Qed.

Lemma append_assoc s t u : (s ++ t) ++ u = s ++ (t ++ u).
Proof.
  induction s as [|a s IH]; [reflexivity|].
  change (String a (s ++ t) ++ u = String a (s ++ t ++ u)).
  change (String a ((s ++ t) ++ u) = String a (s ++ t ++ u)).
  rewrite IH. reflexivity.
Qed.

Lemma has_slash_app s t : has_slash (s ++ t) = has_slash s || has_slash t.
Proof.
  induction s as [|a s IH]; [reflexivity|].
  change (String a s ++ t) with (String a (s ++ t)).
  cbn [has_slash]. rewrite IH, orb_assoc. reflexivity.
Qed.

Lemma basename_from_no_slash s : ∀ acc,
  has_slash s = false → basename_from acc s = acc ++ s.
Proof.
  induction s as [|a s IH]; intros acc Hs.
  - simpl. symmetry. apply append_nil_r.
  - cbn [has_slash] in Hs. apply orb_false_elim in Hs as [Ha Hs].
    cbn [basename_from]. rewrite Ha, (IH _ Hs), append_assoc. reflexivity.
Qed.

Lemma basename_from_slash s t : ∀ acc,
  basename_from acc (s ++ String "/" t) = basename_from "" t.
Proof.
  induction s as [|a s IH]; intros acc; [reflexivity|].
  change (String a s ++ String "/" t) with (String a (s ++ String "/" t)).
  cbn [basename_from]. destruct (Ascii.eqb a "/"); apply IH.
Qed.

(** [os.path.basename] undoes the joining of a directory and a name. *)
Lemma basename_join dir name :
  has_slash name = false → basename (dir ++ "/" ++ name) = name.
Proof.
  intros Hname. unfold basename.
  change ("/" ++ name) with (String "/" name).
  rewrite basename_from_slash, (basename_from_no_slash _ _ Hname). reflexivity.
Qed.

(** X16. The relay receives the export under the bare name of the temporary
    file, [tmp<name>.csv], without the directory: whenever a POST is made
    and the candidate names of the temporary files have no slash, its file
    name is [tmp], one of the candidates, [.csv]. *)
Theorem relay_file_name env request w url name content mime :
  (∀ n, n ∈ tmp_names env → has_slash n = false) →
  EvPost url name content mime ∈ events_since w (export_and_upload env request w).2 →
  ∃ n, n ∈ tmp_names env ∧ name = "tmp" ++ n ++ ".csv".
Proof.
  intros Hnames.
  destruct (export_and_upload_cases env request w)
    as [[e ->] | [[e ->] | [[e ->] | [(e & temp & c & Hfree & ->) |
        (results & temp & nm & _ & _ & _ & _ & Hnm & -> & [(e & _ & ->) | (resp & _ & ->)])]]]];
    simpl snd; rewrite ?events_since_after, ?events_since_same;
    intros Hin; apply list_elem_of_In in Hin; simpl in Hin;
    unfold the_query, the_post in Hin; destruct_or?; simplify_eq; try done.
  all: exists nm; split; [exact Hnm|]; apply basename_join;
    rewrite !has_slash_app, (Hnames _ Hnm); reflexivity.
Qed.

(** *** Failures before the export file exists *)

(** X13. A key that is set but cannot be turned into credentials (not
    base64, not UTF-8, not JSON, or not a service account key) is answered
    like a missing one: 500 with the exception's message, and nothing has
    been called or written. *)
Theorem malformed_key_fails_before_any_call env request w key e :
  os_environ env "SERVICE_ACCOUNT_KEY" = Some key →
  key ≠ "" →
  b64decode env key = Raise e
  ∨ (∃ raw, b64decode env key = Ret raw
       ∧ (decode_utf8 env raw = Raise e
          ∨ ∃ key_json, decode_utf8 env raw = Ret key_json
              ∧ (json_loads env key_json = Raise e
                 ∨ ∃ info, json_loads env key_json = Ret info
                     ∧ from_service_account_info env info SCOPES = Raise e))) →
  export_and_upload env request w = (Ret (error_response env e), w).
Proof.
  intros Hkey Hne Hcause.
  unfold export_and_upload, try_except, export_stage, delegated_credentials.
  unfold_py. rewrite Hkey.
  destruct key as [|a k]; [done|].
  destruct Hcause as [-> | (raw & -> & [-> | (key_json & -> & [-> | (info & -> & ->)])])];
    reflexivity.
Qed.

(** X14. When the query is refused, or waiting for its result raises, the
    answer is 500 with the exception's message; no temporary file has been
    created, the rows have not been read and nothing has been posted. *)
Theorem query_failure_creates_no_file env request w credentials w0 e :
  delegated_credentials env w = (Ret credentials, w0) →
  bq_query env PROJECT credentials QUERY = Raise e
  ∨ (bq_query env PROJECT credentials QUERY = Ret tt ∧ bq_result env = Raise e) →
  ∃ w', export_and_upload env request w = (Ret (error_response env e), w')
        ∧ fs w' = fs w
        ∧ (events_since w w' = [the_query] ∨ events_since w w' = [the_query; EvResult]).
Proof.
  intros Hcred Hcause.
  destruct (delegated_credentials_shape env w) as [[e' He'] | (c & Hc & Hsubject)];
    rewrite Hcred in *; simplify_eq.
  unfold export_and_upload, try_except, export_stage. cbv [mbind M_bind bind].
  rewrite Hcred. unfold run_query, call, emit, lift. cbv [mbind M_bind bind].
  rewrite Hsubject. fold the_query.
  destruct Hcause as [-> | [-> ->]].
  - exists (after w (fs w) [the_query]). split_and!; [reflexivity | reflexivity |].
    left. apply events_since_after.
  - exists (after w (fs w) [the_query; EvResult]). split_and!; [| reflexivity |].
    + unfold after, with_event. simpl. rewrite <- !app_assoc. reflexivity.
    + right. apply events_since_after.
Qed.

(** X15. A result set without rows is exported like any other: the file is
    the header record alone, it is relayed, and when the relay answers 200
    the message says 0 rows. *)
Theorem empty_result_exports_header_only env request w credentials w0 results w1 temp w2 resp :
  delegated_credentials env w = (Ret credentials, w0) →
  run_query env credentials w0 = (Ret results, w1) →
  NamedTemporaryFile env ".csv" w1 = (Ret temp, w2) →
  rs_rows results = [] →
  rs_error results = None →
  requests_post env CLOUD_RUN_URL (basename temp)
    (encode (Csv.writerow (header_record results))) "text/csv" = Ret resp →
  status_code resp = 200%Z →
  ∃ w', export_and_upload env request w
        = (Ret ("Successfully exported 0 rows and uploaded to RAMP Data Upload", 200%Z), w')
        ∧ (the_post temp (encode (Csv.writerow (header_record results)))
           ∈ events_since w w')
        ∧ Csv.read (decode (encode (Csv.writerow (header_record results))))
          = Some [header_record results].
Proof.
  intros Hcred Hquery Htemp Hnone Herr Hpost Hstatus.
  assert (Hrows : rows_match_schema results).
  { unfold rows_match_schema. rewrite Hnone. constructor. }
  assert (Htext : export_text results = Csv.writerow (header_record results)).
  { unfold export_text, data_records, records_of. rewrite Hnone. simpl.
    apply app_nil_r. }
  destruct (write_csv_ok _ _ _ _ _ Htemp Herr Hrows) as [Hfree Hcsv].
  rewrite Htext, Hnone in Hcsv.
  destruct (delegated_credentials_shape env w) as [[e' He'] | (c & Hc & _)];
    rewrite Hcred in *; simplify_eq.
  eexists. split_and!.
  - unfold export_and_upload, try_except, export_stage.
    erewrite bind_ret by (erewrite bind_ret by exact Hcred;
                          erewrite bind_ret by exact Hquery; exact Hcsv).
    cbv beta iota.
    erewrite relay_stage_ok; [| apply lookup_insert_eq | exact Hpost].
    rewrite Hstatus. reflexivity.
  - revert Hquery. unfold run_query, call, emit, lift. cbv [mbind M_bind bind].
    destruct (bq_query env PROJECT _ QUERY) as [[]|]; [|discriminate].
    destruct (bq_result env); [|discriminate].
    intros H. simplify_eq. unfold the_post.
    erewrite events_since_app;
      [| simpl; rewrite <- !app_assoc; simpl; reflexivity].
    apply list_elem_of_In. simpl. tauto.
  - rewrite <- Htext, read_export_text.
    unfold data_records, records_of. rewrite Hnone. reflexivity.
Qed.
End MainMore.

(** ** These statements on the scenarios *)

Module MoreWitnesses.
Import SftpUpload Main SftpFacts MainFacts SftpMore MainMore.

Lemma upload_success_trace_witness :
  let w := with_fs (<["/tmp/report.csv" := File ["x"%byte]]>) fresh_world in
  ∃ w', upload_to_sftp all_well "/tmp/report.csv" "report.csv" "ramp" w = (Ret true, w')
        ∧ events_since w w'
          = [EvSecret "projects/ramp/secrets/SFTP_HOST/versions/latest";
             EvSecret "projects/ramp/secrets/SFTP_USERNAME/versions/latest";
             EvSecret "projects/ramp/secrets/SFTP_PASSWORD/versions/latest";
             EvSecret "projects/ramp/secrets/SFTP_DIRECTORY/versions/latest";
             EvTransport "sftp.example.com" 22; EvConnect "uploader" "hunter2";
             EvSftpOpen; EvChdir "/incoming";
             EvPut "/tmp/report.csv" "report.csv" (Some ["x"%byte]);
             EvSftpClose; EvTransportClose;
             EvLog INFO "Successfully uploaded /tmp/report.csv to /incoming/report.csv"]
        ∧ transport_active w' = false
        ∧ sftp_active w' = false
        ∧ fs w' = fs w.
Proof.
  intros w.
  apply (upload_success_trace all_well "/tmp/report.csv" "report.csv" "ramp" w
           "sftp.example.com" "uploader" "hunter2" "/incoming" ["x"%byte]).
  - repeat split; vm_compute; reflexivity.
  - reflexivity.
  - reflexivity.
  - reflexivity.
  - reflexivity.
  - vm_compute. reflexivity.
  - reflexivity.
Defined.

Lemma upload_true_means_uploaded_witness :
  let w := with_fs (<["/tmp/report.csv" := File ["x"%byte]]>) fresh_world in
  let w' := (upload_to_sftp all_well "/tmp/report.csv" "report.csv" "ramp" w).2 in
  ∃ c, fs w !! "/tmp/report.csv" = Some (File c)
       ∧ remote_put all_well "report.csv" c = Ret tt
       ∧ (EvPut "/tmp/report.csv" "report.csv" (Some c) ∈ events_since w w')
       ∧ transport_active w' = false
       ∧ sftp_active w' = false
       ∧ fs w' !! "/tmp/report.csv" = Some (File c).
Proof.
  intros w w'.
  apply (upload_true_means_uploaded all_well "/tmp/report.csv" "report.csv" "ramp" w w').
  vm_compute. reflexivity.
Defined.

Lemma secret_failure_opens_no_connection_witness :
  ∃ w', upload_to_sftp all_well "/tmp/report.csv" "report.csv" "other" fresh_world
        = (Ret false, w')
        ∧ (∀ host port, EvTransport host port ∉ events_since fresh_world w')
        ∧ transport_active w' = transport_active fresh_world
        ∧ sftp_active w' = sftp_active fresh_world.
Proof.
  apply (secret_failure_opens_no_connection all_well "/tmp/report.csv" "report.csv" "other"
           fresh_world
           (Exn GoogleAPIError
              "404 Secret not found: projects/other/secrets/SFTP_HOST/versions/latest")).
  right. exists "SFTP_HOST". split.
  - apply list_elem_of_In. simpl. tauto.
  - vm_compute. reflexivity.
Defined.

Lemma success_means_payload_uploaded_witness :
  let w' := (process_csv_upload all_well (Bytes ["x"%byte]) "report.csv" "ramp" fresh_world).2 in
  ∃ b, (Bytes ["x"%byte] = Bytes b ∨ Bytes ["x"%byte] = Stream (Ret b))
       ∧ "File report.csv uploaded successfully" = "File " ++ "report.csv" ++ " uploaded successfully"
       ∧ remote_put all_well "report.csv" b = Ret tt
       ∧ (EvPut ("/tmp/" ++ "report.csv") "report.csv" (Some b) ∈ events_since fresh_world w')
       ∧ transport_active w' = false.
Proof.
  intros w'.
  apply (success_means_payload_uploaded all_well (Bytes ["x"%byte]) "report.csv" "ramp"
           fresh_world (mkResult "success" "File report.csv uploaded successfully") w').
  - vm_compute. reflexivity.
  - reflexivity.
Defined.

Lemma failed_save_is_reported_without_upload_witness :
  fs fresh_world !! ("/tmp/" ++ "report.csv") = None
  ∧ ∃ w', process_csv_upload all_well (Stream (Raise (Exn OSError "read failed")))
            "report.csv" "ramp" fresh_world
          = (Ret (mkResult "error" "read failed"), w')
          ∧ events_since fresh_world w' = [EvLog ERROR "Error processing upload: read failed"]
          ∧ fs w' = fs fresh_world.
Proof.
  split; [reflexivity|].
  apply (failed_save_is_reported_without_upload all_well
           (Stream (Raise (Exn OSError "read failed"))) "report.csv" "ramp" fresh_world
           (Exn OSError "read failed")).
  - reflexivity.
  - right. split; reflexivity.
Defined.

Lemma export_and_upload_keeps_existing_files_witness :
  fs (export_and_upload all_well "" fresh_world).2 !! "/tmp/" = fs fresh_world !! "/tmp/".
Proof.
  apply (export_and_upload_keeps_existing_files all_well "" fresh_world "/tmp/").
  exists Dir. vm_compute. reflexivity.
Defined.

Lemma only_complete_exports_are_relayed_witness :
  CLOUD_RUN_URL = CLOUD_RUN_URL ∧ "text/csv" = "text/csv"
  ∧ ∃ results,
      bq_result all_well = Ret results
      ∧ rs_error results = None
      ∧ rows_match_schema results
      ∧ encode (export_text three_rows) = encode (export_text results)
      ∧ Csv.read (decode (encode (export_text three_rows)))
        = Some (header_record results :: data_records results).
Proof.
  apply (only_complete_exports_are_relayed all_well "" fresh_world CLOUD_RUN_URL
           "tmpk3x9_q2a.csv" (encode (export_text three_rows)) "text/csv").
  apply list_elem_of_In. vm_compute. tauto.
Defined.

Lemma relay_file_name_witness :
  ∃ n, n ∈ tmp_names all_well ∧ "tmpk3x9_q2a.csv" = "tmp" ++ n ++ ".csv".
Proof.
  apply (relay_file_name all_well "" fresh_world CLOUD_RUN_URL
           "tmpk3x9_q2a.csv" (encode (export_text three_rows)) "text/csv").
  - intros n Hn. apply list_elem_of_In in Hn. simpl in Hn.
    destruct Hn as [<- | []]. reflexivity.
  - apply list_elem_of_In. vm_compute. tauto.
Defined.

Lemma malformed_key_fails_before_any_call_witness :
  let env := export_scenario (Raise (Exn ValueError "Incorrect padding")) (Ret tt)
                             (Ret three_rows) in
  export_and_upload env "" fresh_world
  = (Ret (error_response env (Exn ValueError "Incorrect padding")), fresh_world).
Proof.
  intros env.
  apply (malformed_key_fails_before_any_call env "" fresh_world "e30="
           (Exn ValueError "Incorrect padding")).
  - reflexivity.
  - discriminate.
  - left. reflexivity.
Defined.

Lemma query_failure_creates_no_file_witness :
  let env := export_scenario (Ret []) (Raise (Exn GoogleAPIError "403 Access Denied"))
                             (Ret three_rows) in
  ∃ w', export_and_upload env "" fresh_world
        = (Ret (error_response env (Exn GoogleAPIError "403 Access Denied")), w')
        ∧ fs w' = fs fresh_world
        ∧ (events_since fresh_world w' = [the_query]
           ∨ events_since fresh_world w' = [the_query; EvResult]).
Proof.
  intros env.
  apply (query_failure_creates_no_file env "" fresh_world
           (mkCredentials "{}" SCOPES (Some DELEGATED_USER)) fresh_world
           (Exn GoogleAPIError "403 Access Denied")).
  - reflexivity.
  - left. reflexivity.
Defined.

Lemma empty_result_exports_header_only_witness :
  let env := export_scenario (Ret []) (Ret tt) (Ret no_rows) in
  ∃ w', export_and_upload env "" fresh_world
        = (Ret ("Successfully exported 0 rows and uploaded to RAMP Data Upload", 200%Z), w')
        ∧ (the_post "/tmp/tmpk3x9_q2a.csv" (encode (Csv.writerow (header_record no_rows)))
           ∈ events_since fresh_world w')
        ∧ Csv.read (decode (encode (Csv.writerow (header_record no_rows))))
          = Some [header_record no_rows].
Proof.
  intros env.
  pose (credentials := mkCredentials "{}" SCOPES (Some DELEGATED_USER)).
  pose (w1 := (run_query env credentials fresh_world).2).
  apply (empty_result_exports_header_only env "" fresh_world credentials fresh_world
           no_rows w1 "/tmp/tmpk3x9_q2a.csv"
           (NamedTemporaryFile env ".csv" w1).2 (mkResponse 200 "OK")).
  - reflexivity.
  - vm_compute. reflexivity.
  - vm_compute. reflexivity.
  - reflexivity.
  - reflexivity.
  - reflexivity.
  - reflexivity.
Defined.
End MoreWitnesses.
